(** * WebExtractorDJGMunich: a shallow embedding of [djg_munich.py]

    The script drives a browser through Selenium, reads an alphabetical
    glossary out of an embedded frame, downloads the images it meets and
    dumps the collected dictionary as JSON.

    Everything the script does is an interaction with the outside world
    (browser, clock, network, file system, standard output).  The outside
    world is an abstract environment [E] whose answers are not constrained:
    every call may change the environment and may raise.  The program is
    written in a state-and-exception monad over a [World] that carries the
    environment, the lines printed so far, the files written so far and the
    log of calls issued so far.  The state survives an exception, as it
    does in Python. *)

From Stdlib Require Import String Ascii List ZArith Lia Bool.
From stdpp Require Import base strings gmap list pretty.
Import ListNotations.
Local Open Scope string_scope.
Local Open Scope list_scope.

(** ** Python values and exceptions *)

(** The exceptions the script can meet.  [NoSuchElementException] is the
    only one it ever catches. *)
Inductive exn : Type :=
  | NoSuchElementException
  | TimeoutException
  | StaleElementReferenceException
  | WebDriverException (msg : string)
  | RequestException (msg : string)
  | MissingSchema
  | OSError (msg : string)
  | IndexError
  | KeyError
  | TypeError
  | AttributeError.

Global Instance exn_eq_dec : EqDecision exn.
Proof. solve_decision. Defined.

Inductive result (A : Type) : Type :=
  | Ok (a : A)
  | Raise (e : exn).
Arguments Ok {A} a.
Arguments Raise {A} e.

(** A Selenium [WebElement] is a handle on a node of the page. *)
Inductive WebElement : Type := Element (id : nat).

Global Instance WebElement_eq_dec : EqDecision WebElement.
Proof. solve_decision. Defined.

(** The first argument of [execute_with_exception_handling] is the driver
    itself or an element used as search root. *)
Inductive scope : Type :=
  | Driver
  | Within (root : WebElement).

(** [selenium.webdriver.common.by.By]: the locator strategies are plain
    strings. *)
Module By.
Definition TAG_NAME : string := "tag name".
Definition XPATH : string := "xpath".
End By.

(** [requests.Response], as far as the script reads it. *)
Record Response : Type := mkResponse {
  status_code : Z;
  content : list Byte.byte
}.

(** The values stored in the extracted dictionary.  A Python [dict] keeps
    insertion order, so it is an association list; [PyNone] is needed
    because [get_attribute] answers [None] for a missing attribute. *)
#[local] Unset Elimination Schemes.
Inductive pyval : Type :=
  | PyNone
  | PyStr (s : string)
  | PyList (l : list pyval)
  | PyDict (d : list (string * pyval)).
#[local] Set Elimination Schemes.

Definition dict : Type := list (string * pyval).

(** [d[k]] *)
Fixpoint dict_get (k : string) (d : dict) : option pyval :=
  match d with
  | [] => None
  | (k', v') :: d' => if String.eqb k k' then Some v' else dict_get k d'
  end.

(** [d[k] = v]: an existing key keeps its position, a new key goes last. *)
Fixpoint dict_set (k : string) (v : pyval) (d : dict) : dict :=
  match d with
  | [] => [(k, v)]
  | (k', v') :: d' =>
      if String.eqb k k' then (k', v) :: d' else (k', v') :: dict_set k v d'
  end.

Definition dict_keys (d : dict) : list string := map fst d.

(** The induction principle of [pyval], through lists and dictionaries. *)
Section pyval_induction.
Variable P : pyval → Prop.
Hypothesis P_none : P PyNone.
Hypothesis P_str : ∀ s, P (PyStr s).
Hypothesis P_list : ∀ l, Forall P l → P (PyList l).
Hypothesis P_dict : ∀ d, Forall (λ kv, P kv.2) d → P (PyDict d).

Fixpoint pyval_ind (o : pyval) : P o :=
  match o with
  | PyNone => P_none
  | PyStr s => P_str s
  | PyList l =>
      P_list l
        ((fix all (l : list pyval) : Forall P l :=
            match l with
            | [] => List.Forall_nil P
            | x :: l' => List.Forall_cons P x l' (pyval_ind x) (all l')
            end) l)
  | PyDict d =>
      P_dict d
        ((fix all (d : list (string * pyval)) : Forall (λ kv, P kv.2) d :=
            match d with
            | [] => List.Forall_nil _
            | kv :: d' => List.Forall_cons _ kv d' (pyval_ind kv.2) (all d')
            end) d)
  end.
End pyval_induction.

(** ** The outside world *)

(** Every call the script issues to the outside world. *)
Inductive event : Type :=
  | EvFirefox
  | EvImplicitlyWait (seconds : nat)
  | EvGet (url : string)
  | EvExecuteScript (script : string)
  | EvFindElement (root : scope) (by_filter filter_name : string)
  | EvFindElements (root : scope) (by_filter filter_name : string)
  | EvClick (e : WebElement)
  | EvText (e : WebElement)
  | EvGetAttribute (e : WebElement) (name : string)
  | EvWaitVisible (e : WebElement)
  | EvWaitClickable (e : WebElement)
  | EvSwitchToFrame (e : WebElement)
  | EvQuit
  | EvSleep (seconds : nat)
  | EvRequestsGet (url : string)
  | EvPathExists (path : string)
  | EvMkdir (path : string)
  | EvOpen (path mode : string)
  | EvWrite (path : string) (data : list Byte.byte).

(** The environment answers every call; the answer may depend on, and
    change, its hidden state: pages load, elements go stale, time passes. *)
Class Environment (E : Type) : Type := {
  webdriver_Firefox : E → E * result unit;
  implicitly_wait : nat → E → E * result unit;
  driver_get : string → E → E * result unit;
  execute_script : string → E → E * result unit;
  find_element : scope → string → string → E → E * result WebElement;
  find_elements : scope → string → string → E → E * result (list WebElement);
  element_click : WebElement → E → E * result unit;
  element_text : WebElement → E → E * result string;
  get_attribute : WebElement → string → E → E * result (option string);
  wait_until_visible : WebElement → E → E * result unit;
  wait_until_clickable : WebElement → E → E * result unit;
  switch_to_frame : WebElement → E → E * result unit;
  driver_quit : E → E * result unit;
  time_sleep : nat → E → E;
  requests_get : string → E → E * result Response;
  os_path_exists : string → E → E * bool;
  os_mkdir : string → E → E * result unit;
  file_open : string → string → E → E * result unit;
  file_write : string → list Byte.byte → E → E * result unit
}.

(** [pathvalidate.sanitize_filename] is third-party code; the script is
    parametric in it. *)
Class Sanitizer : Type := sanitize_filename : string → string.

Record World (E : Type) : Type := mkWorld {
  env : E;
  stdout : list string;
  files : gmap string (list Byte.byte);
  trace : list event
}.
Arguments mkWorld {E} _ _ _ _.
Arguments env {E} _.
Arguments stdout {E} _.
Arguments files {E} _.
Arguments trace {E} _.

(** ** The monad *)

Definition M (E A : Type) : Type := World E → World E * result A.

Definition ret {E A} (a : A) : M E A := λ w, (w, Ok a).

Definition raise {E A} (e : exn) : M E A := λ w, (w, Raise e).

Definition bind {E A B} (m : M E A) (k : A → M E B) : M E B :=
  λ w, match m w with
       | (w', Ok a) => k a w'
       | (w', Raise e) => (w', Raise e)
       end.

Global Instance M_ret {E} : MRet (M E) := λ A, @ret E A.
Global Instance M_bind {E} : MBind (M E) := λ A B k m, @bind E A B m k.

(** [try: m except caught: handler] *)
Definition try_except {E A} (m : M E A) (caught : exn) (handler : M E A) : M E A :=
  λ w, match m w with
       | (w', Ok a) => (w', Ok a)
       | (w', Raise e) => if decide (e = caught) then handler w' else (w', Raise e)
       end.

(** A call to the outside world: logged, then answered. *)
Definition call {E A} (ev : event) (op : E → E * result A) : M E A :=
  λ w, let (e', r) := op (env w) in
       (mkWorld e' (stdout w) (files w) (trace w ++ [ev]), r).

Definition print {E} (line : string) : M E unit :=
  λ w, (mkWorld (env w) (stdout w ++ [line]) (files w) (trace w), Ok tt).

(** [for i, x in enumerate(l)] with the variables the loop body assigns
    threaded as [s]. *)
Fixpoint for_enumerate {E A St} (body : nat → A → St → M E St)
    (i : nat) (l : list A) (s : St) : M E St :=
  match l with
  | [] => ret s
  | x :: l' => s' ← body i x s; for_enumerate body (S i) l' s'
  end.

(** [list(map(f, l))] for an [f] that calls the outside world *)
Fixpoint map_M {E A B} (f : A → M E B) (l : list A) : M E (list B) :=
  match l with
  | [] => ret []
  | x :: l' => y ← f x; ys ← map_M f l'; ret (y :: ys)
  end.

(** ** [json.dump(obj, fp, indent=True, ensure_ascii=False)]

    A Python [str] is held as the string of its UTF-8 bytes.  The characters
    the encoder escapes are all below 0x80, where bytes and code points
    agree, so escaping byte by byte is escaping character by character. *)
Module Json.

Definition dquote : ascii := ascii_of_nat 34.
Definition backslash : ascii := ascii_of_nat 92.
Definition newline : ascii := ascii_of_nat 10.

Definition hex_digit (n : nat) : ascii :=
  if (n <? 10)%nat then ascii_of_nat (48 + n) else ascii_of_nat (87 + n).

(** [ESCAPE_DCT]: the short escapes, and [\u00xx] for the other control
    characters; with [ensure_ascii=False] nothing else is escaped. *)
Definition escape_char (c : ascii) : string :=
  let n := nat_of_ascii c in
  if (n =? 34)%nat then String backslash (String dquote "")
  else if (n =? 92)%nat then String backslash (String backslash "")
  else if (n =? 10)%nat then String backslash "n"
  else if (n =? 13)%nat then String backslash "r"
  else if (n =? 9)%nat then String backslash "t"
  else if (n =? 8)%nat then String backslash "b"
  else if (n =? 12)%nat then String backslash "f"
  else if (n <? 32)%nat then
    String backslash
      (String "u" (String "0" (String "0"
        (String (hex_digit (n / 16)) (String (hex_digit (n mod 16)) "")))))
  else String c "".

Fixpoint escape (s : string) : string :=
  match s with
  | EmptyString => ""
  | String c s' => escape_char c +:+ escape s'
  end.

(** [encode_basestring] *)
Definition encode_basestring (s : string) : string :=
  String dquote (escape s +:+ String dquote "").

Fixpoint spaces (n : nat) : string :=
  match n with
  | 0 => ""
  | S n' => String " " (spaces n')
  end.

(** [indent=True] is the integer 1: one space per nesting level. *)
Definition newline_indent (level : nat) : string :=
  String newline (spaces (1 * level)).

(** The chunks of the items after the first one: each is preceded by
    [separator], the item separator followed by the newline and the
    indentation. *)
Section Chunks.
Context {A : Type} (item : A → string) (separator : string).

Fixpoint chunks_after_first (l : list A) : string :=
  match l with
  | [] => ""
  | y :: l' => separator +:+ item y +:+ chunks_after_first l'
  end.
End Chunks.

(** [_iterencode], with [_iterencode_list] and [_iterencode_dict], all
    chunks concatenated; [level] is [_current_indent_level]. *)
Fixpoint iterencode (level : nat) (o : pyval) : string :=
  match o with
  | PyNone => "null"
  | PyStr s => encode_basestring s
  | PyList [] => "[]"
  | PyList (x :: xs) =>
      "[" +:+ newline_indent (S level) +:+ iterencode (S level) x
      +:+ chunks_after_first (iterencode (S level))
            ("," +:+ newline_indent (S level)) xs
      +:+ newline_indent level +:+ "]"
  | PyDict [] => "{}"
  | PyDict (kv :: kvs) =>
      let member (kv : string * pyval) :=
        encode_basestring kv.1 +:+ ": " +:+ iterencode (S level) kv.2 in
      "{" +:+ newline_indent (S level) +:+ member kv
      +:+ chunks_after_first member ("," +:+ newline_indent (S level)) kvs
      +:+ newline_indent level +:+ "}"
  end.

Definition dumps (o : pyval) : string := iterencode 0 o.

(** The text of one member of an object. *)
Definition member (level : nat) (kv : string * pyval) : string :=
  encode_basestring kv.1 +:+ ": " +:+ iterencode (S level) kv.2.

(** The dump of a value starts with a quote, [n], a bracket or a brace. *)
Definition opens_value (c : ascii) : Prop :=
  c = dquote ∨ c = "n"%char ∨ c = "["%char ∨ c = "{"%char.

(** *** Reading the file back: [json.loads]

    The script never reads its output; the decoder is what a consumer of
    the file runs.  It follows [json.decoder] and [json.scanner] on the
    documents that [pyval] can hold: objects, arrays, strings and
    [null].  Numbers, [true] and [false] have no [pyval] and are
    refused, and so is an escaped surrogate. *)

Definition is_whitespace (c : ascii) : bool :=
  let n := nat_of_ascii c in
  ((n =? 32) || (n =? 10) || (n =? 13) || (n =? 9))%nat.

Fixpoint skip_whitespace (s : string) : string :=
  match s with
  | EmptyString => s
  | String c s' => if is_whitespace c then skip_whitespace s' else s
  end.

Definition hex_value (c : ascii) : option N :=
  let n := N_of_ascii c in
  if ((48 <=? n) && (n <=? 57))%N then Some (n - 48)%N
  else if ((97 <=? n) && (n <=? 102))%N then Some (n - 87)%N
  else if ((65 <=? n) && (n <=? 70))%N then Some (n - 55)%N
  else None.

Definition hex4 (h1 h2 h3 h4 : ascii) : option N :=
  match hex_value h1, hex_value h2, hex_value h3, hex_value h4 with
  | Some a, Some b, Some c, Some d => Some (((a * 16 + b) * 16 + c) * 16 + d)%N
  | _, _, _, _ => None
  end.

(** The UTF-8 bytes of a code point of the basic plane. *)
Definition utf8 (code : N) : option string :=
  if (code <? 128)%N then Some (String (ascii_of_N code) "")
  else if (code <? 2048)%N then
    Some (String (ascii_of_N (192 + code / 64))
           (String (ascii_of_N (128 + code mod 64)) ""))
  else if ((55296 <=? code) && (code <=? 57343))%N then None
  else
    Some (String (ascii_of_N (224 + code / 4096))
           (String (ascii_of_N (128 + (code / 64) mod 64))
             (String (ascii_of_N (128 + code mod 64)) ""))).

(** [BACKSLASH] of [json.decoder] *)
Definition unescape (c : ascii) : option ascii :=
  let n := nat_of_ascii c in
  if (n =? 34)%nat then Some dquote
  else if (n =? 92)%nat then Some backslash
  else if (n =? 47)%nat then Some "/"%char
  else if (n =? 98)%nat then Some (ascii_of_nat 8)
  else if (n =? 102)%nat then Some (ascii_of_nat 12)
  else if (n =? 110)%nat then Some (ascii_of_nat 10)
  else if (n =? 114)%nat then Some (ascii_of_nat 13)
  else if (n =? 116)%nat then Some (ascii_of_nat 9)
  else None.

(** [scanstring], strict: the text after an opening quote, up to the
    closing one. *)
Fixpoint scanstring (s : string) : option (string * string) :=
  match s with
  | EmptyString => None
  | String c s' =>
      if Ascii.eqb c dquote then Some ("", s')
      else if Ascii.eqb c backslash then
        match s' with
        | EmptyString => None
        | String e s'' =>
            if Ascii.eqb e "u" then
              match s'' with
              | String h1 (String h2 (String h3 (String h4 s3))) =>
                  match hex4 h1 h2 h3 h4 with
                  | Some code =>
                      match utf8 code, scanstring s3 with
                      | Some u, Some (str, rest) => Some (u +:+ str, rest)
                      | _, _ => None
                      end
                  | None => None
                  end
              | _ => None
              end
            else
              match unescape e, scanstring s'' with
              | Some ch, Some (str, rest) => Some (String ch str, rest)
              | _, _ => None
              end
        end
      else if (nat_of_ascii c <? 32)%nat then None
      else
        match scanstring s' with
        | Some (str, rest) => Some (String c str, rest)
        | None => None
        end
  end.

(** [dict(pairs)]: a repeated key keeps its first place and its last value. *)
Definition dict_of_pairs (pairs : list (string * pyval)) : dict :=
  fold_left (λ d kv, dict_set kv.1 kv.2 d) pairs [].

(** [scan_once] with [JSONArray] and [JSONObject]; [fuel] bounds the
    nesting and the number of items read. *)
Fixpoint scan_once (fuel : nat) (s : string) : option (pyval * string) :=
  match fuel with
  | 0 => None
  | S fuel' =>
      match skip_whitespace s with
      | EmptyString => None
      | String c rest =>
          if Ascii.eqb c dquote then
            match scanstring rest with
            | Some (str, rest') => Some (PyStr str, rest')
            | None => None
            end
          else if Ascii.eqb c "n" then
            match rest with
            | String "u" (String "l" (String "l" rest')) => Some (PyNone, rest')
            | _ => None
            end
          else if Ascii.eqb c "[" then
            match skip_whitespace rest with
            | String "]" rest' => Some (PyList [], rest')
            | _ =>
                match scan_array fuel' rest with
                | Some (values, rest') => Some (PyList values, rest')
                | None => None
                end
            end
          else if Ascii.eqb c "{" then
            match skip_whitespace rest with
            | String "}" rest' => Some (PyDict [], rest')
            | _ =>
                match scan_object fuel' rest with
                | Some (pairs, rest') => Some (PyDict (dict_of_pairs pairs), rest')
                | None => None
                end
            end
          else None
      end
  end
with scan_array (fuel : nat) (s : string) : option (list pyval * string) :=
  match fuel with
  | 0 => None
  | S fuel' =>
      match scan_once fuel' s with
      | Some (value, rest) =>
          match skip_whitespace rest with
          | String "]" rest' => Some ([value], rest')
          | String "," rest' =>
              match scan_array fuel' rest' with
              | Some (values, rest'') => Some (value :: values, rest'')
              | None => None
              end
          | _ => None
          end
      | None => None
      end
  end
with scan_object (fuel : nat) (s : string)
    : option (list (string * pyval) * string) :=
  match fuel with
  | 0 => None
  | S fuel' =>
      match skip_whitespace s with
      | String c rest =>
          if Ascii.eqb c dquote then
            match scanstring rest with
            | Some (key, rest1) =>
                match skip_whitespace rest1 with
                | String ":" rest2 =>
                    match scan_once fuel' rest2 with
                    | Some (value, rest3) =>
                        match skip_whitespace rest3 with
                        | String "}" rest' => Some ([(key, value)], rest')
                        | String "," rest' =>
                            match scan_object fuel' rest' with
                            | Some (pairs, rest'') => Some ((key, value) :: pairs, rest'')
                            | None => None
                            end
                        | _ => None
                        end
                    | None => None
                    end
                | _ => None
                end
            | None => None
            end
          else None
      | EmptyString => None
      end
  end.

(** [json.loads]: one value, then nothing but whitespace. *)
Definition loads (s : string) : option pyval :=
  match scan_once (String.length s) s with
  | Some (o, rest) =>
      match skip_whitespace rest with
      | EmptyString => Some o
      | _ => None
      end
  | None => None
  end.

End Json.

(** ** [pathvalidate.sanitize_filename] *)

Module Pathvalidate.

(** The characters that common file systems refuse in a file name: the
    control characters and [\ / : * ? < > |] and the double quote. *)
Definition invalid_char (c : ascii) : bool :=
  let n := nat_of_ascii c in
  ((n <? 32) || (n =? 127) || (n =? 34) || (n =? 42) || (n =? 47) || (n =? 58)
   || (n =? 60) || (n =? 62) || (n =? 63) || (n =? 92) || (n =? 124))%nat.

(** Modelled from the spec: [pathvalidate] is a third-party package and
    its source is not part of the repository.  The specification
    describes a sanitized file name as "a string transformed to
    remove/escape characters disallowed by common filesystems"; the
    model removes them and keeps every other character in place. *)
Fixpoint sanitize_filename (filename : string) : string :=
  match filename with
  | EmptyString => ""
  | String c rest =>
      if invalid_char c then sanitize_filename rest
      else String c (sanitize_filename rest)
  end.

(** No character of [filename] is refused by the file system. *)
Fixpoint valid_filename (filename : string) : bool :=
  match filename with
  | EmptyString => true
  | String c rest => negb (invalid_char c) && valid_filename rest
  end.

End Pathvalidate.

(** ** The script *)

(** What a lookup hands back: [find_element] gives one element,
    [find_elements] a list; [None] is the [option] around it. *)
Inductive found : Type :=
  | FoundOne (e : WebElement)
  | FoundMany (l : list WebElement).

Section Script.
Context {E : Type} `{!Environment E} `{!Sanitizer}.

(** *** Python primitives used by the script *)

Definition sleep (seconds : nat) : M E unit :=
  call (EvSleep seconds) (λ e, (time_sleep seconds e, Ok tt)).

Definition click (element : WebElement) : M E unit :=
  call (EvClick element) (element_click element).

Definition text (element : WebElement) : M E string :=
  call (EvText element) (element_text element).

(** [if x:] on the result of a lookup; a [WebElement] defines neither
    [__bool__] nor [__len__] and is always true. *)
Definition truthy (x : option found) : bool :=
  match x with
  | None => false
  | Some (FoundOne _) => true
  | Some (FoundMany l) => negb (bool_decide (l = []))
  end.

(** [x.text] *)
Definition attr_text (x : option found) : M E string :=
  match x with
  | Some (FoundOne e) => text e
  | _ => raise AttributeError
  end.

(** [x[i]] *)
Definition subscript (x : option found) (i : nat) : M E WebElement :=
  match x with
  | Some (FoundMany l) =>
      match l !! i with
      | Some e => mret e
      | None => raise IndexError
      end
  | _ => raise TypeError
  end.

(** [iter(x)], as [enumerate] and [map] call it *)
Definition iterate (x : option found) : M E (list WebElement) :=
  match x with
  | Some (FoundMany l) => mret l
  | _ => raise TypeError
  end.

(** [buttons[j]] on a list of strings *)
Definition list_item (l : list string) (j : nat) : M E string :=
  match l !! j with
  | Some x => mret x
  | None => raise IndexError
  end.

(** [wait.until(EC.element_to_be_clickable(element))]: the element
    itself once it is displayed and enabled, [TimeoutException] after
    ten seconds. *)
Definition wait_clickable (element : WebElement) : M E WebElement :=
  call (EvWaitClickable element) (wait_until_clickable element);;
  mret element.

(** [wait.until(EC.visibility_of(x))]; the predicate calls
    [x.is_displayed()]. *)
Definition wait_visibility_of (x : option found) : M E WebElement :=
  match x with
  | Some (FoundOne e) =>
      call (EvWaitVisible e) (wait_until_visible e);; mret e
  | _ => raise AttributeError
  end.

(** [requests.get(url)]; [None] has no scheme and is refused before
    anything is sent. *)
Definition requests_get_url (url : option string) : M E Response :=
  match url with
  | Some u => call (EvRequestsGet u) (requests_get u)
  | None => raise MissingSchema
  end.

Definition set_file (path : string) (data : list Byte.byte) : M E unit :=
  λ w, (mkWorld (env w) (stdout w) (<[path := data]> (files w)) (trace w), Ok tt).

(** [open(path, 'w+')] and [open(path, 'wb+')] create or truncate. *)
Definition open (path mode : string) : M E unit :=
  call (EvOpen path mode) (file_open path mode);;
  set_file path [].

(** [f.write(data)] on a file just opened at [path] *)
Definition write (path : string) (data : list Byte.byte) : M E unit :=
  call (EvWrite path data) (file_write path data);;
  set_file path data.

Definition pyval_of_attribute (a : option string) : pyval :=
  match a with
  | Some s => PyStr s
  | None => PyNone
  end.

(** [extracted_data[alpha][key] = value] *)
Definition dict_set_nested (alpha key : string) (value : pyval) (d : dict) : M E dict :=
  match dict_get alpha d with
  | Some (PyDict inner) => mret (dict_set alpha (PyDict (dict_set key value inner)) d)
  | Some _ => raise TypeError
  | None => raise KeyError
  end.

(** *** [start_webdriver] *)
Definition start_webdriver : M E unit :=
  call EvFirefox webdriver_Firefox.

(** *** [execute_with_exception_handling] *)
Definition execute_with_exception_handling
    (driver : scope) (by_filter filter_name : string) (all_elements : bool)
    : M E (option found) :=
  try_except
    (if all_elements then
       data ← call (EvFindElements driver by_filter filter_name)
                   (find_elements driver by_filter filter_name);
       mret (Some (FoundMany data))
     else
       data ← call (EvFindElement driver by_filter filter_name)
                   (find_element driver by_filter filter_name);
       mret (Some (FoundOne data)))
    NoSuchElementException
    (print ("Couldn't find element " +:+ filter_name
            +:+ " with filter " +:+ by_filter +:+ "!");;
     mret None).

(** *** [click_alpha_navigation_button] *)
Definition click_alpha_navigation_button (i : nat) (element : WebElement)
    : M E (WebElement * option found) :=
  (if decide (i ≠ 0) then click element else mret tt);;
  sleep 2;;
  uls ← execute_with_exception_handling Driver By.TAG_NAME "ul" true;
  accordion_item ← subscript uls 1;
  button_elements ←
    execute_with_exception_handling (Within accordion_item) By.XPATH ".//button" true;
  mret (accordion_item, button_elements).

(** *** [process_webpage_elements] *)

Definition children_xpath : string :=
  "//div[@data-hook=" +:+ String Json.dquote "children"
  +:+ String Json.dquote "]".

(** The body of [for i, image_box in enumerate(image_boxes)]. *)
Definition image_loop_body (button_text : string)
    (i : nat) (image_box : WebElement) (images : list pyval)
    : M E (list pyval) :=
  image_url ← call (EvGetAttribute image_box "src") (get_attribute image_box "src");
  let images := (images ++ [pyval_of_attribute image_url])%list in
  response ← requests_get_url image_url;
  if decide (status_code response = 200%Z) then
    let sanitized_filename := sanitize_filename (button_text +:+ "_" +:+ pretty i) in
    let filename := "./images/" +:+ sanitized_filename +:+ ".png" in
    open filename "wb+";;
    write filename (content response);;
    mret images
  else mret images.

Definition process_webpage_elements (j : nat) (element accordion_item : WebElement)
    (buttons : list string) : M E dict :=
  (if decide (j ≠ 0) then click element else mret tt);;
  sleep 3;;
  let data_container : dict := [] in
  button_text ← list_item buttons j;
  let data_container := dict_set "header" (PyStr button_text) data_container in
  text_box ←
    execute_with_exception_handling (Within accordion_item) By.XPATH children_xpath false;
  data_container ←
    (if truthy text_box then
       text_box ← attr_text text_box;
       mret (dict_set "text" (PyStr text_box) data_container)
     else mret data_container);
  image_boxes ←
    execute_with_exception_handling (Within accordion_item) By.XPATH "//img" true;
  image_boxes ← iterate image_boxes;
  images ← for_enumerate (image_loop_body button_text) 0 image_boxes [];
  mret (dict_set "images" (PyList images) data_container).

(** *** [load_website] *)

(** The body of [for j, button in enumerate(button_elements)]. *)
Definition page_loop_body (accordion_item : WebElement) (buttons : list string)
    (alpha : string) (j : nat) (button : WebElement) (extracted_data : dict)
    : M E dict :=
  element ← wait_clickable button;
  data_container ← process_webpage_elements j element accordion_item buttons;
  dict_set_nested alpha ("page_" +:+ pretty j) (PyDict data_container) extracted_data.

(** The body of [for i, a_nav in enumerate(alpha_nav_buttons)]. *)
Definition letter_loop_body (i : nat) (a_nav : WebElement) (extracted_data : dict)
    : M E dict :=
  alpha ← text a_nav;
  let extracted_data := dict_set alpha (PyDict []) extracted_data in
  element ← wait_clickable a_nav;
  '(accordion_item, button_elements) ← click_alpha_navigation_button i element;
  button_elements ← iterate button_elements;
  buttons ← map_M text button_elements;
  for_enumerate (page_loop_body accordion_item buttons alpha) 0
    button_elements extracted_data.

Definition load_website (url : string) : M E dict :=
  call (EvImplicitlyWait 10) (implicitly_wait 10);;
  call (EvGet url) (driver_get url);;
  call (EvExecuteScript "window.scrollTo(0, 100);")
       (execute_script "window.scrollTo(0, 100);");;
  sleep 5;;
  let extracted_data : dict := [] in
  main_text ← execute_with_exception_handling Driver By.TAG_NAME "main" false;
  extracted_data ←
    (if truthy main_text then
       main_text ← attr_text main_text;
       mret (dict_set "main" (PyStr main_text) extracted_data)
     else mret extracted_data);
  content_iframe ← execute_with_exception_handling Driver By.TAG_NAME "iframe" false;
  content_iframe ← wait_visibility_of content_iframe;
  call (EvSwitchToFrame content_iframe) (switch_to_frame content_iframe);;
  ul_elements_in_iframe ←
    execute_with_exception_handling Driver By.TAG_NAME "ul" true;
  nav ← subscript ul_elements_in_iframe 0;
  alpha_nav_buttons ←
    execute_with_exception_handling (Within nav) By.XPATH ".//div" true;
  alpha_nav_buttons ← iterate alpha_nav_buttons;
  for_enumerate letter_loop_body 0 alpha_nav_buttons extracted_data.

(** *** [make_img_dir] *)
Definition make_img_dir : M E unit :=
  exists_ ← call (EvPathExists "./images")
                 (λ e, let (e', b) := os_path_exists "./images" e in (e', Ok b));
  if negb exists_ then call (EvMkdir "./images") (os_mkdir "./images")
  else mret tt.

(** *** [start_extraction] *)

Definition json_path : string := "./djg_munich.json".

Definition start_extraction (url : string) : M E unit :=
  make_img_dir;;
  start_webdriver;;
  extracted_content ← load_website url;
  call EvQuit driver_quit;;
  open json_path "w+";;
  write json_path (list_byte_of_string (Json.dumps (PyDict extracted_content))).

End Script.

(** ** A fixture page

    Two letters, "A" with one entry and "B" with two; the content list
    shows the entries of the letter clicked last.  The switches select a
    page with or without a [main] block, a body-text block and a content
    list, so that every branch of the script can be run. *)
Module Fixture.

Record page : Type := mkPage {
  shown : nat;
  has_main : bool;
  has_text : bool;
  has_content_list : bool
}.

Definition full : page := mkPage 0 true true true.
Definition bare : page := mkPage 0 false false true.
Definition broken : page := mkPage 0 true true false.

Definition png : list Byte.byte := [Byte.x89; Byte.x50; Byte.x4e; Byte.x47].

Definition fixture_find_element (root : scope) (by_filter filter_name : string)
    (p : page) : page * result WebElement :=
  if String.eqb filter_name "main" then
    (p, if has_main p then Ok (Element 0) else Raise NoSuchElementException)
  else if String.eqb filter_name "iframe" then (p, Ok (Element 1))
  else if String.eqb filter_name children_xpath then
    (p, if has_text p then Ok (Element 40) else Raise NoSuchElementException)
  else (p, Raise NoSuchElementException).

Definition fixture_find_elements (root : scope) (by_filter filter_name : string)
    (p : page) : page * result (list WebElement) :=
  if String.eqb filter_name "ul" then
    (p, Ok (if has_content_list p then [Element 10; Element 11] else [Element 10]))
  else if String.eqb filter_name ".//div" then (p, Ok [Element 20; Element 21])
  else if String.eqb filter_name ".//button" then
    (p, Ok (match shown p with
            | 0 => [Element 30]
            | _ => [Element 31; Element 32]
            end))
  else if String.eqb filter_name "//img" then
    (p, Ok (match shown p with
            | 0 => [Element 50; Element 51]
            | _ => []
            end))
  else (p, Ok []).

Definition fixture_click (e : WebElement) (p : page) : page * result unit :=
  match e with
  | Element 21 => (mkPage 1 (has_main p) (has_text p) (has_content_list p), Ok tt)
  | _ => (p, Ok tt)
  end.

Definition fixture_text (e : WebElement) (p : page) : page * result string :=
  (p, Ok match e with
         | Element 0 => "Japan A-Z"
         | Element 20 => "A"
         | Element 21 => "B"
         | Element 30 => "Aikido"
         | Element 31 => "Bonsai"
         | Element 32 => "Budo"
         | Element 40 => "body"
         | _ => ""
         end).

Definition fixture_get_attribute (e : WebElement) (name : string) (p : page)
    : page * result (option string) :=
  (p, Ok match e with
         | Element 50 => Some "https://example.org/a.png"
         | Element 51 => Some "https://example.org/gone.png"
         | _ => None
         end).

Definition fixture_requests_get (url : string) (p : page) : page * result Response :=
  if String.eqb url "https://example.org/a.png" then (p, Ok (mkResponse 200 png))
  else (p, Ok (mkResponse 404 [])).

Global Instance fixture_environment : Environment page := {|
  webdriver_Firefox := λ p, (p, Ok tt);
  implicitly_wait := λ (_ : nat) p, (p, Ok tt);
  driver_get := λ (_ : string) p, (p, Ok tt);
  execute_script := λ (_ : string) p, (p, Ok tt);
  find_element := fixture_find_element;
  find_elements := fixture_find_elements;
  element_click := fixture_click;
  element_text := fixture_text;
  get_attribute := fixture_get_attribute;
  wait_until_visible := λ (_ : WebElement) p, (p, Ok tt);
  wait_until_clickable := λ (_ : WebElement) p, (p, Ok tt);
  switch_to_frame := λ (_ : WebElement) p, (p, Ok tt);
  driver_quit := λ p, (p, Ok tt);
  time_sleep := λ (_ : nat) p, p;
  requests_get := fixture_requests_get;
  os_path_exists := λ (_ : string) p, (p, false);
  os_mkdir := λ (_ : string) p, (p, Ok tt);
  file_open := λ (_ _ : string) p, (p, Ok tt);
  file_write := λ (_ : string) (_ : list Byte.byte) p, (p, Ok tt)
|}.

Definition start (p : page) : World page := mkWorld p [] ∅ [].

End Fixture.

(** ** Vocabulary of the statements *)

Section Vocabulary.
Context {E : Type} `{!Environment E} `{!Sanitizer}.

(** What Selenium answers to the lookup the helper issues. *)
Definition selenium_lookup (driver : scope) (by_filter filter_name : string)
    (all_elements : bool) (e : E) : E * result found :=
  if all_elements then
    match find_elements driver by_filter filter_name e with
    | (e', Ok l) => (e', Ok (FoundMany l))
    | (e', Raise ex) => (e', Raise ex)
    end
  else
    match find_element driver by_filter filter_name e with
    | (e', Ok x) => (e', Ok (FoundOne x))
    | (e', Raise ex) => (e', Raise ex)
    end.

Definition lookup_event (driver : scope) (by_filter filter_name : string)
    (all_elements : bool) : event :=
  if all_elements then EvFindElements driver by_filter filter_name
  else EvFindElement driver by_filter filter_name.

Definition diagnostic (by_filter filter_name : string) : string :=
  "Couldn't find element " +:+ filter_name +:+ " with filter " +:+ by_filter +:+ "!".

(** Selenium's contract for [find_elements]: no match is an empty list,
    not a no-such-element error. *)
Definition find_elements_never_misses : Prop :=
  ∀ root by_filter filter_name e,
    (find_elements root by_filter filter_name e).2 ≠ Raise NoSuchElementException.

(** The opening of both loop bodies: [if index != 0: element.click()]
    and then [time.sleep(seconds)]. *)
Definition click_unless_first (index : nat) (element : WebElement) (seconds : nat)
    : M E unit :=
  (if decide (index ≠ 0) then click element else mret tt);;
  sleep seconds.


(** Everything [start_extraction] does before it shuts the browser down. *)
Definition extraction (url : string) : M E dict :=
  make_img_dir;; start_webdriver;; load_website url.

(** [w'] is reached from [w] by issuing only calls that satisfy [P] and
    leaving every file whose path satisfies [Q] as it was. *)
Definition quietly (P : event → Prop) (Q : string → Prop) (w w' : World E) : Prop :=
  (∃ evs, trace w' = trace w ++ evs ∧ Forall P evs)
  ∧ (∀ path, Q path → files w' !! path = files w !! path).

Definition respects (P : event → Prop) (Q : string → Prop) {A} (m : M E A) : Prop :=
  ∀ w w' r, m w = (w', r) → quietly P Q w w'.

End Vocabulary.

(** The key of the entry at position [j] of its letter. *)
Definition page_key (j : nat) : string := "page_" +:+ pretty j.

(** No [dict] inside [o] holds a key twice, as in every Python value. *)
Fixpoint unique_keys (o : pyval) : Prop :=
  match o with
  | PyNone | PyStr _ => True
  | PyList l =>
      (fix all (l : list pyval) : Prop :=
         match l with
         | [] => True
         | x :: l' => unique_keys x ∧ all l'
         end) l
  | PyDict d =>
      NoDup (dict_keys d) ∧
      (fix all (d : list (string * pyval)) : Prop :=
         match d with
         | [] => True
         | kv :: d' => unique_keys kv.2 ∧ all d'
         end) d
  end.

(** Fuel that lets [Json.scan_once] read the dump of [o] back. *)
Fixpoint scan_cost (o : pyval) : nat :=
  match o with
  | PyNone | PyStr _ => 1
  | PyList l =>
      S ((fix total (l : list pyval) : nat :=
            match l with
            | [] => 0
            | x :: l' => S (scan_cost x + total l')
            end) l)
  | PyDict d =>
      S ((fix total (d : list (string * pyval)) : nat :=
            match d with
            | [] => 0
            | kv :: d' => S (scan_cost kv.2 + total d')
            end) d)
  end.

(** [o] is read back from its dump at any nesting level, whatever
    follows, with [scan_cost o] as fuel. *)
Definition reads_back (o : pyval) : Prop :=
  unique_keys o →
  ∀ level fuel rest,
    (scan_cost o ≤ fuel)%nat →
    Json.scan_once fuel (Json.iterencode level o +:+ rest) = Some (o, rest).

(** An entry of the data model: [header], then [text] if there is one,
    then [images]. *)
Definition entry_of (header : string) (text : option string) (images : list string)
    : pyval :=
  PyDict (("header", PyStr header)
          :: match text with
             | Some t => [("text", PyStr t)]
             | None => []
             end
          ++ [("images", PyList (map PyStr images))]).

Definition is_entry (o : pyval) : Prop :=
  ∃ header text images, o = entry_of header text images.

(** The mapping of one letter: page keys, none twice, to entries. *)
Definition is_letter (o : pyval) : Prop :=
  ∃ pages, o = PyDict pages ∧
           NoDup (dict_keys pages) ∧
           Forall (λ kv, (∃ j, kv.1 = page_key j) ∧ is_entry kv.2) pages.

(** The data model as the specification words it: every key is a letter
    label and holds the mapping of that letter. *)
Definition matches_data_model (extracted : dict) : Prop :=
  Forall (λ kv, is_letter kv.2) extracted.

(** The URLs fetched by a run of calls, in order. *)
Definition requested_urls (evs : list event) : list string :=
  omap (λ ev, match ev with EvRequestsGet url => Some url | _ => None end) evs.

(** Files below [./images/]. *)
Definition image_path (path : string) : Prop :=
  String.prefix "./images/" path = true.

(** The calls that read the page, fetch an image or store one. *)
Definition routine (ev : event) : Prop :=
  match ev with
  | EvFindElement _ _ _ | EvFindElements _ _ _ | EvText _ | EvGetAttribute _ _
  | EvWaitVisible _ | EvWaitClickable _ | EvRequestsGet _ => True
  | EvOpen path _ | EvWrite path _ => image_path path
  | _ => False
  end.

(** Those and the calls that drive the browser session. *)
Definition browsing (ev : event) : Prop :=
  match ev with
  | EvClick _ | EvSleep _ | EvImplicitlyWait _ | EvGet _ | EvExecuteScript _
  | EvSwitchToFrame _ => True
  | _ => routine ev
  end.

(** Neither a click nor a sleep. *)
Definition quiet (ev : event) : Prop :=
  match ev with
  | EvClick _ | EvSleep _ => False
  | _ => True
  end.

(** The calls a loop body starts with: for index 0 the sleep alone, for
    any other index the click on [element] and, unless the click raised,
    the sleep; after that neither clicks nor sleeps. *)
Definition opens_with (index : nat) (element : WebElement) (seconds : nat)
    (click_outcome : result unit) (evs : list event) : Prop :=
  if decide (index = 0) then
    ∃ rest, evs = EvSleep seconds :: rest ∧ Forall quiet rest
  else
    match click_outcome with
    | Ok _ => ∃ rest, evs = EvClick element :: EvSleep seconds :: rest ∧ Forall quiet rest
    | Raise _ => evs = [EvClick element]
    end.

(** Neither opens nor writes the file at [path]. *)
Definition leaves (path : string) (ev : event) : Prop :=
  match ev with
  | EvOpen p _ | EvWrite p _ => p ≠ path
  | _ => True
  end.

(** What holds of the extracted dictionary at every point of the run: no
    key stands twice, and every value is the mapping of a letter or, under
    the key [main] only, a string. *)
Definition shaped (extracted : dict) : Prop :=
  Forall (λ kv, is_letter kv.2 ∨ (kv.1 = "main" ∧ ∃ s, kv.2 = PyStr s)) extracted
  ∧ NoDup (dict_keys extracted).

(** ** The stages of a run *)

Section Stages.
Context {E : Type} `{!Environment E} `{!Sanitizer}.

(** [load_website] up to the main text: the page is opened and settled,
    and the main text, if there is one, is the first thing extracted. *)
Definition load_website_main (url : string) : M E dict :=
  call (EvImplicitlyWait 10) (implicitly_wait 10);;
  call (EvGet url) (driver_get url);;
  call (EvExecuteScript "window.scrollTo(0, 100);")
       (execute_script "window.scrollTo(0, 100);");;
  sleep 5;;
  main_text ← execute_with_exception_handling Driver By.TAG_NAME "main" false;
  if truthy main_text then
    main_text ← attr_text main_text;
    mret (dict_set "main" (PyStr main_text) [])
  else mret [].

(** [load_website] from there to the switch into the content frame. *)
Definition load_website_frame : M E unit :=
  content_iframe ← execute_with_exception_handling Driver By.TAG_NAME "iframe" false;
  content_iframe ← wait_visibility_of content_iframe;
  call (EvSwitchToFrame content_iframe) (switch_to_frame content_iframe).

(** [start_extraction] once the image directory is there. *)
Definition browser_session (url : string) : M E unit :=
  start_webdriver;;
  extracted_content ← load_website url;
  call EvQuit driver_quit;;
  open json_path "w+";;
  write json_path (list_byte_of_string (Json.dumps (PyDict extracted_content))).

(** [w'] is reached from [w] by printing only lines that satisfy [D]. *)
Definition prints_only (D : string → Prop) (w w' : World E) : Prop :=
  ∃ lines, stdout w' = stdout w ++ lines ∧ Forall D lines.

Definition printing (D : string → Prop) {A} (m : M E A) : Prop :=
  ∀ w w' r, m w = (w', r) → prints_only D w w'.

End Stages.

(** ** What a run finds on the page *)

Section Findings.
Context {E : Type} `{!Environment E} `{!Sanitizer}.

(** [load_website] before it looks for the main block (lines 168-175). *)
Definition load_website_open (url : string) : M E unit :=
  call (EvImplicitlyWait 10) (implicitly_wait 10);;
  call (EvGet url) (driver_get url);;
  call (EvExecuteScript "window.scrollTo(0, 100);")
       (execute_script "window.scrollTo(0, 100);");;
  sleep 5.

(** [load_website] up to its loop (lines 168-196): the dictionary as it is
    after the main text, and the letter elements the loop runs over. *)
Definition load_website_letters (url : string) : M E (dict * list WebElement) :=
  extracted_data ← load_website_main url;
  load_website_frame;;
  ul_elements_in_iframe ←
    execute_with_exception_handling Driver By.TAG_NAME "ul" true;
  nav ← subscript ul_elements_in_iframe 0;
  alpha_nav_buttons ←
    execute_with_exception_handling (Within nav) By.XPATH ".//div" true;
  alpha_nav_buttons ← iterate alpha_nav_buttons;
  mret (extracted_data, alpha_nav_buttons).

(** The text of the main block as [load_website] started in [w] reads it
    from the page; [None] when the lookup finds no main block. *)
Definition main_block_text (url : string) (w : World E) : option string :=
  match load_website_open url w with
  | (w1, Ok _) =>
      match execute_with_exception_handling Driver By.TAG_NAME "main" false w1 with
      | (w2, Ok (Some (FoundOne block))) =>
          match element_text block (env w2) with
          | (_, Ok t) => Some t
          | _ => None
          end
      | _ => None
      end
  | _ => None
  end.

(** The letter groups as the loop over [alpha_nav_buttons] meets them, from
    index [i] on: for every letter element the label read from it and the
    number of button elements found once it was revealed. *)
Fixpoint letter_groups (i : nat) (alpha_nav_buttons : list WebElement)
    (extracted_data : dict) (w : World E) : list (string * nat) :=
  match alpha_nav_buttons with
  | [] => []
  | a_nav :: rest =>
      match text a_nav w with
      | (w1, Ok alpha) =>
          match (element ← wait_clickable a_nav;
                 click_alpha_navigation_button i element) w1 with
          | (_, Ok (_, Some (FoundMany button_elements))) =>
              match letter_loop_body i a_nav extracted_data w with
              | (w', Ok extracted_data') =>
                  (alpha, length button_elements)
                  :: letter_groups (S i) rest extracted_data' w'
              | _ => []
              end
          | _ => []
          end
      | _ => []
      end
  end.

(** The letter groups of [load_website] started in [w]. *)
Definition groups_of_run (url : string) (w : World E) : list (string * nat) :=
  match load_website_letters url w with
  | (w1, Ok (extracted_data, alpha_nav_buttons)) =>
      letter_groups 0 alpha_nav_buttons extracted_data w1
  | _ => []
  end.

End Findings.

(** The labels of letter groups, in order. *)
Definition labels (groups : list (string * nat)) : list string := map fst groups.

(** No group after position [k] carries the label [alpha]. *)
Definition last_with_label (groups : list (string * nat)) (k : nat) (alpha : string)
    : Prop :=
  ∀ k' N', (k < k')%nat → groups !! k' ≠ Some (alpha, N').

(** A line printed by [execute_with_exception_handling]. *)
Definition is_diagnostic (line : string) : Prop :=
  ∃ by_filter filter_name,
    line = "Couldn't find element " +:+ filter_name
           +:+ " with filter " +:+ by_filter +:+ "!".

(** The calls of a browser session: no check for, and no creation of, a
    directory; files are opened and written below [./images/] or at the
    path of the JSON file only. *)
Definition session_call (ev : event) : Prop :=
  match ev with
  | EvPathExists _ | EvMkdir _ => False
  | EvOpen path _ | EvWrite path _ => image_path path ∨ path = json_path
  | _ => True
  end.

(** A file name that cannot leave its directory: it holds no [/]. *)
Fixpoint separator_free (name : string) : bool :=
  match name with
  | EmptyString => true
  | String c rest => negb (Ascii.eqb c "/") && separator_free rest
  end.

(** The files [./images/<name>.png] that lie in [./images] itself. *)
Definition image_file_path (path : string) : Prop :=
  ∃ name, separator_free name = true ∧ path = "./images/" +:+ name +:+ ".png".

(** Any call, as long as a file opened or written is such an image file
    or is the JSON file. *)
Definition script_call (ev : event) : Prop :=
  match ev with
  | EvOpen path _ | EvWrite path _ => image_file_path path ∨ path = json_path
  | _ => True
  end.

(** Every other file. *)
Definition other_file (path : string) : Prop :=
  ¬ image_file_path path ∧ path ≠ json_path.

(** Files the script has no business with. *)
Definition foreign_path (path : string) : Prop :=
  ¬ image_path path ∧ path ≠ json_path.

(** The elements whose [src] attribute a run of calls reads, in order. *)
Definition src_reads (evs : list event) : list WebElement :=
  omap (λ ev, match ev with
              | EvGetAttribute e "src" => Some e
              | _ => None
              end) evs.

(** Not an HTTP request. *)
Definition no_request (ev : event) : Prop :=
  match ev with
  | EvRequestsGet _ => False
  | _ => True
  end.

Definition is_quit (ev : event) : Prop :=
  match ev with
  | EvQuit => True
  | _ => False
  end.

(** ** A second fixture: a site that fails in chosen places

    One letter with one entry and one image.  The switches take away the
    image directory, the right to create it, the content frame, the lists
    and the letters. *)
Module Faulty.

Record site : Type := mkSite {
  dir_exists : bool;
  mkdir_allowed : bool;
  has_iframe : bool;
  lists : list WebElement;
  letters : list WebElement
}.

Definition sound : site := mkSite true true true [Element 10; Element 11] [Element 20].
Definition read_only : site := mkSite false false true [Element 10; Element 11] [Element 20].
Definition frameless : site := mkSite true true false [Element 10; Element 11] [Element 20].
Definition listless : site := mkSite true true true [] [Element 20].
Definition letterless : site := mkSite true true true [Element 10; Element 11] [].

Definition faulty_find_element (root : scope) (by_filter filter_name : string)
    (s : site) : site * result WebElement :=
  if String.eqb filter_name "main" then (s, Ok (Element 0))
  else if String.eqb filter_name "iframe" then
    (s, if has_iframe s then Ok (Element 1) else Raise NoSuchElementException)
  else (s, Raise NoSuchElementException).

Definition faulty_find_elements (root : scope) (by_filter filter_name : string)
    (s : site) : site * result (list WebElement) :=
  if String.eqb filter_name "ul" then (s, Ok (lists s))
  else if String.eqb filter_name ".//div" then (s, Ok (letters s))
  else if String.eqb filter_name ".//button" then (s, Ok [Element 30])
  else if String.eqb filter_name "//img" then (s, Ok [Element 50])
  else (s, Ok []).

Definition faulty_text (e : WebElement) (s : site) : site * result string :=
  (s, Ok match e with
         | Element 0 => "Japan A-Z"
         | Element 20 => "K"
         | Element 30 => "Kimono"
         | _ => ""
         end).

Definition faulty_mkdir (path : string) (s : site) : site * result unit :=
  (s, if mkdir_allowed s then Ok tt else Raise (OSError "Permission denied")).

Global Instance faulty_environment : Environment site := {|
  webdriver_Firefox := λ s, (s, Ok tt);
  implicitly_wait := λ (_ : nat) s, (s, Ok tt);
  driver_get := λ (_ : string) s, (s, Ok tt);
  execute_script := λ (_ : string) s, (s, Ok tt);
  find_element := faulty_find_element;
  find_elements := faulty_find_elements;
  element_click := λ (_ : WebElement) s, (s, Ok tt);
  element_text := faulty_text;
  get_attribute := λ (_ : WebElement) (_ : string) s, (s, Ok (Some "https://example.org/k.png"));
  wait_until_visible := λ (_ : WebElement) s, (s, Ok tt);
  wait_until_clickable := λ (_ : WebElement) s, (s, Ok tt);
  switch_to_frame := λ (_ : WebElement) s, (s, Ok tt);
  driver_quit := λ s, (s, Ok tt);
  time_sleep := λ (_ : nat) s, s;
  requests_get := λ (_ : string) s, (s, Ok (mkResponse 200 [Byte.x89]));
  os_path_exists := λ (_ : string) s, (s, dir_exists s);
  os_mkdir := faulty_mkdir;
  file_open := λ (_ _ : string) s, (s, Ok tt);
  file_write := λ (_ : string) (_ : list Byte.byte) s, (s, Ok tt)
|}.

Definition start (s : site) : World site := mkWorld s [] ∅ [].

End Faulty.

(** ** A third fixture: two letters that carry the same label

    Both letter elements read "A".  The first shows one entry, the second,
    once clicked, two. *)
Module Twins.

Inductive page : Type := Shown (letter : nat).

Definition twins_find_element (root : scope) (by_filter filter_name : string)
    (p : page) : page * result WebElement :=
  if String.eqb filter_name "iframe" then (p, Ok (Element 1))
  else (p, Raise NoSuchElementException).

Definition twins_find_elements (root : scope) (by_filter filter_name : string)
    (p : page) : page * result (list WebElement) :=
  if String.eqb filter_name "ul" then (p, Ok [Element 10; Element 11])
  else if String.eqb filter_name ".//div" then (p, Ok [Element 20; Element 21])
  else if String.eqb filter_name ".//button" then
    (p, Ok (match p with
            | Shown 0 => [Element 30]
            | Shown _ => [Element 31; Element 32]
            end))
  else (p, Ok []).

Definition twins_click (e : WebElement) (p : page) : page * result unit :=
  match e with
  | Element 21 => (Shown 1, Ok tt)
  | _ => (p, Ok tt)
  end.

Definition twins_text (e : WebElement) (p : page) : page * result string :=
  (p, Ok match e with
         | Element 20 => "A"
         | Element 21 => "A"
         | Element 30 => "Aikido"
         | Element 31 => "Anime"
         | Element 32 => "Arita"
         | _ => ""
         end).

Global Instance twins_environment : Environment page := {|
  webdriver_Firefox := λ p, (p, Ok tt);
  implicitly_wait := λ (_ : nat) p, (p, Ok tt);
  driver_get := λ (_ : string) p, (p, Ok tt);
  execute_script := λ (_ : string) p, (p, Ok tt);
  find_element := twins_find_element;
  find_elements := twins_find_elements;
  element_click := twins_click;
  element_text := twins_text;
  get_attribute := λ (_ : WebElement) (_ : string) p, (p, Ok None);
  wait_until_visible := λ (_ : WebElement) p, (p, Ok tt);
  wait_until_clickable := λ (_ : WebElement) p, (p, Ok tt);
  switch_to_frame := λ (_ : WebElement) p, (p, Ok tt);
  driver_quit := λ p, (p, Ok tt);
  time_sleep := λ (_ : nat) p, p;
  requests_get := λ (_ : string) p, (p, Ok (mkResponse 404 []));
  os_path_exists := λ (_ : string) p, (p, true);
  os_mkdir := λ (_ : string) p, (p, Ok tt);
  file_open := λ (_ _ : string) p, (p, Ok tt);
  file_write := λ (_ : string) (_ : list Byte.byte) p, (p, Ok tt)
|}.

Definition start : World page := mkWorld (Shown 0) [] ∅ [].

End Twins.
(** The page the script is run on (line 244). *)
Definition site_url : string := "https://www.djg-muenchen.de/japan-a-z".

(** * Properties *)

(** ** Reasoning about the monad *)

Section Monad_lemmas.
Context {E : Type}.

Lemma bind_unfold {A B} (m : M E A) (k : A → M E B) (w : World E) :
  (m ≫= k) w =
  match m w with
  | (w', Ok a) => k a w'
  | (w', Raise e) => (w', Raise e)
  end.
Proof. reflexivity. Qed.

Lemma bind_ok {A B} (m : M E A) (k : A → M E B) w w1 a :
  m w = (w1, Ok a) → (m ≫= k) w = k a w1.
Proof. intros Hm. rewrite bind_unfold, Hm. reflexivity. Qed.

Lemma bind_raise {A B} (m : M E A) (k : A → M E B) w w1 e :
  m w = (w1, Raise e) → (m ≫= k) w = (w1, Raise e).
Proof. intros Hm. rewrite bind_unfold, Hm. reflexivity. Qed.

Lemma bind_inv {A B} (m : M E A) (k : A → M E B) w w' r :
  (m ≫= k) w = (w', r) →
  (∃ w1 a, m w = (w1, Ok a) ∧ k a w1 = (w', r))
  ∨ (∃ e, m w = (w', Raise e) ∧ r = Raise e).
Proof.
  rewrite bind_unfold. destruct (m w) as [w1 [a|e]]; intros Hk.
  - left. eauto.
  - right. inversion Hk; subst. eauto.
Qed.

Lemma bind_inv_ok {A B} (m : M E A) (k : A → M E B) w w' b :
  (m ≫= k) w = (w', Ok b) →
  ∃ w1 a, m w = (w1, Ok a) ∧ k a w1 = (w', Ok b).
Proof.
  intros Hb. apply bind_inv in Hb as [Hb | (e & _ & Hb)]; [done | discriminate].
Qed.

Lemma bind_assoc {A B C} (m : M E A) (k1 : A → M E B) (k2 : B → M E C) w :
  ((m ≫= k1) ≫= k2) w = (m ≫= (λ a, k1 a ≫= k2)) w.
Proof.
  rewrite !bind_unfold. destruct (m w) as [w1 [a|e]]; reflexivity.
Qed.

Lemma mret_unfold {A} (a : A) (w : World E) : (mret a : M E A) w = (w, Ok a).
Proof. reflexivity. Qed.

Lemma call_ok {A} ev (op : E → E * result A) (w : World E) e' a :
  op (env w) = (e', Ok a) →
  call ev op w = (mkWorld e' (stdout w) (files w) (trace w ++ [ev]), Ok a).
Proof. intros Hop. unfold call. rewrite Hop. reflexivity. Qed.

Lemma call_raise {A} ev (op : E → E * result A) (w : World E) e' ex :
  op (env w) = (e', Raise ex) →
  call ev op w = (mkWorld e' (stdout w) (files w) (trace w ++ [ev]), Raise ex).
Proof. intros Hop. unfold call. rewrite Hop. reflexivity. Qed.

Lemma call_inv_ok {A} ev (op : E → E * result A) (w w' : World E) a :
  call ev op w = (w', Ok a) →
  ∃ e', op (env w) = (e', Ok a) ∧
        w' = mkWorld e' (stdout w) (files w) (trace w ++ [ev]).
Proof.
  unfold call. destruct (op (env w)) as [e' [a'|ex]]; intros [= <- <-]. eauto.
Qed.

End Monad_lemmas.

(** Splits a successful run of [m ≫= k] into the run of [m] and of [k]. *)
Ltac split_ok H :=
  let w1 := fresh "w" in
  let a := fresh "a" in
  let Hm := fresh "Hm" in
  apply bind_inv_ok in H as (w1 & a & Hm & H).

(** ** Calls issued and files kept *)

Section Respects.
Context {E : Type} `{!Environment E} `{!Sanitizer}.
Variable P : event → Prop.
Variable Q : string → Prop.

Lemma quietly_refl (w : World E) : quietly P Q w w.
Proof.
  split; [|done]. exists []. rewrite app_nil_r. by split.
Qed.

Lemma quietly_trans (w1 w2 w3 : World E) :
  quietly P Q w1 w2 → quietly P Q w2 w3 → quietly P Q w1 w3.
Proof.
  intros [(evs1 & Ht1 & HP1) Hf1] [(evs2 & Ht2 & HP2) Hf2]. split.
  - exists (evs1 ++ evs2). rewrite Ht2, Ht1, app_assoc.
    split; [done|]. by apply Forall_app.
  - intros path Hpath. rewrite Hf2, Hf1; done.
Qed.

Lemma respects_ret {A} (a : A) : respects P Q (mret a : M E A).
Proof. intros w w' r [= <- _]. apply quietly_refl. Qed.

Lemma respects_raise {A} (e : exn) : respects P Q (raise e : M E A).
Proof. intros w w' r [= <- _]. apply quietly_refl. Qed.

Lemma respects_bind {A B} (m : M E A) (k : A → M E B) :
  respects P Q m → (∀ a, respects P Q (k a)) → respects P Q (m ≫= k).
Proof.
  intros Hm Hk w w' r Hrun.
  apply bind_inv in Hrun as [(w1 & a & Hrun1 & Hrun2) | (e & Hrun1 & _)].
  - eapply quietly_trans; [by eapply Hm | by eapply Hk].
  - by eapply Hm.
Qed.

Lemma respects_try_except {A} (m handler : M E A) caught :
  respects P Q m → respects P Q handler → respects P Q (try_except m caught handler).
Proof.
  intros Hm Hh w w' r. unfold try_except.
  destruct (m w) as [w1 [a|e]] eqn:Hrun.
  - intros [= <- _]. by eapply Hm.
  - destruct (decide (e = caught)).
    + intros Hrun2. eapply quietly_trans; [by eapply Hm | by eapply Hh].
    + intros [= <- _]. by eapply Hm.
Qed.

Lemma respects_call {A} (ev : event) (op : E → E * result A) :
  P ev → respects P Q (call ev op).
Proof.
  intros Hev w w' r. unfold call. destruct (op (env w)) as [e' r'].
  intros [= <- _]. split; [|done]. exists [ev]. simpl. split; [done|].
  by apply Forall_singleton.
Qed.

Lemma respects_print (line : string) : respects P Q (print line : M E unit).
Proof.
  intros w w' r [= <- _]. split; [|done]. exists []. simpl.
  rewrite app_nil_r. by split.
Qed.

Lemma respects_set_file (path : string) data :
  ¬ Q path → respects P Q (set_file path data : M E unit).
Proof.
  intros Hpath w w' r [= <- _]. split.
  - exists []. simpl. rewrite app_nil_r. by split.
  - intros path' Hpath'. simpl. apply lookup_insert_ne. by intros ->.
Qed.

Lemma respects_for_enumerate {A St} (body : nat → A → St → M E St) l :
  (∀ i x s, respects P Q (body i x s)) →
  ∀ i s, respects P Q (for_enumerate body i l s).
Proof.
  intros Hbody. induction l as [|x l IH]; intros i s; simpl.
  - apply respects_ret.
  - apply respects_bind; [apply Hbody|]. intros s'. apply IH.
Qed.

Lemma respects_map_M {A B} (f : A → M E B) l :
  (∀ x, respects P Q (f x)) → respects P Q (map_M f l).
Proof.
  intros Hf. induction l as [|x l IH]; simpl.
  - apply respects_ret.
  - apply respects_bind; [apply Hf|]. intros y.
    apply respects_bind; [apply IH|]. intros ys. apply respects_ret.
Qed.

End Respects.

(** Takes a script function apart down to its calls and hands every call
    to [leaf]. *)
Ltac respects_script leaf :=
  repeat first
    [ apply respects_ret
    | apply respects_raise
    | apply respects_print
    | apply respects_call; leaf
    | apply respects_set_file; leaf
    | progress unfold requests_get_url, subscript, iterate, list_item, attr_text,
        wait_visibility_of, dict_set_nested
    | apply respects_bind; [|intros ?]
    | apply respects_try_except
    | apply respects_for_enumerate; intros ? ? ?
    | apply respects_map_M; intros ?
    | match goal with
      | |- respects _ _ (if ?b then _ else _) => destruct b
      | |- respects _ _ (match ?x with _ => _ end) => destruct x
      end ].

Lemma image_path_intro (name : string) : image_path ("./images/" +:+ name).
Proof. unfold image_path. destruct name; reflexivity. Qed.

Lemma routine_browsing ev : routine ev → browsing ev.
Proof. destruct ev; simpl; done. Qed.

Section Respects_script.
Context {E : Type} `{!Environment E} `{!Sanitizer}.
Variable P : event → Prop.
Variable Q : string → Prop.
Hypothesis image_path_Q : ∀ path, image_path path → ¬ Q path.

Section Routine.
Hypothesis routine_P : ∀ ev, routine ev → P ev.

Local Ltac leaf :=
  first [ apply routine_P; first [exact I | apply image_path_intro]
        | apply image_path_Q, image_path_intro ].

Lemma execute_with_exception_handling_respects
    driver by_filter filter_name all_elements :
  respects P Q
    (execute_with_exception_handling driver by_filter filter_name all_elements).
Proof. respects_script leaf. Qed.

Lemma image_loop_body_respects button_text i image_box images :
  respects P Q (image_loop_body button_text i image_box images).
Proof. respects_script leaf. Qed.

Lemma lookups_and_images_respect accordion_item button_text
    (data : option found → M E dict) :
  (∀ text_box, respects P Q (data text_box)) →
  respects P Q
    (text_box ←
       execute_with_exception_handling (Within accordion_item) By.XPATH
         children_xpath false;
     data_container ← data text_box;
     image_boxes ←
       execute_with_exception_handling (Within accordion_item) By.XPATH "//img" true;
     image_boxes ← iterate image_boxes;
     images ← for_enumerate (image_loop_body button_text) 0 image_boxes [];
     mret (dict_set "images" (PyList images) data_container)).
Proof.
  intros Hdata.
  apply respects_bind; [apply execute_with_exception_handling_respects|].
  intros text_box. apply respects_bind; [apply Hdata|]. intros data_container.
  respects_script leaf.
Qed.

End Routine.

Section Browsing.
Hypothesis browsing_P : ∀ ev, browsing ev → P ev.

Local Ltac leaf :=
  first [ apply browsing_P; first [exact I | apply image_path_intro]
        | apply image_path_Q, image_path_intro ].

Lemma load_website_respects url : respects P Q (load_website url).
Proof. respects_script leaf. Qed.

End Browsing.

End Respects_script.

Section Properties.
Context {E : Type} `{!Environment E} `{!Sanitizer}.

(** *** The element lookup helper *)

(** The helper, outcome by outcome. *)
Lemma execute_with_exception_handling_spec driver by_filter filter_name all_elements w :
  execute_with_exception_handling driver by_filter filter_name all_elements w =
  let ev := lookup_event driver by_filter filter_name all_elements in
  match selenium_lookup driver by_filter filter_name all_elements (env w) with
  | (e', Ok x) => (mkWorld e' (stdout w) (files w) (trace w ++ [ev]), Ok (Some x))
  | (e', Raise ex) =>
      if decide (ex = NoSuchElementException) then
        (mkWorld e' (stdout w ++ [diagnostic by_filter filter_name]) (files w)
                 (trace w ++ [ev]), Ok None)
      else (mkWorld e' (stdout w) (files w) (trace w ++ [ev]), Raise ex)
  end.
Proof.
  unfold execute_with_exception_handling, selenium_lookup, lookup_event, try_except.
  destruct all_elements; rewrite bind_unfold; unfold call; simpl.
  - destruct (find_elements _ _ _ _) as [e' [l|ex]]; [reflexivity|].
    destruct (decide _); reflexivity.
  - destruct (find_element _ _ _ _) as [e' [l|ex]]; [reflexivity|].
    destruct (decide _); reflexivity.
Qed.

(** C3. When the lookup raises the no-such-element error, the helper
    returns [None] and prints one diagnostic line; when it raises any
    other exception, that exception reaches the caller and nothing is
    printed. *)
Theorem helper_swallows_only_no_such_element
    driver by_filter filter_name all_elements (w : World E) e' ex :
  selenium_lookup driver by_filter filter_name all_elements (env w) = (e', Raise ex) →
  let outcome :=
    execute_with_exception_handling driver by_filter filter_name all_elements w in
  (ex = NoSuchElementException →
     outcome.2 = Ok None ∧
     stdout outcome.1 = stdout w ++ [diagnostic by_filter filter_name])
  ∧ (ex ≠ NoSuchElementException →
     outcome.2 = Raise ex ∧ stdout outcome.1 = stdout w).
Proof.
  intros Hlook. simpl. rewrite execute_with_exception_handling_spec. simpl.
  rewrite Hlook. destruct (decide (ex = NoSuchElementException)); split; intros; done.
Qed.

(** C10. Given Selenium's contract for [find_elements], a helper call
    with the multiple-results flag set returns a list or raises, never
    [None], and prints nothing; a [None] result comes with the flag
    unset and one diagnostic line; an empty list of matches is returned
    as such without a diagnostic. *)
Theorem multi_lookup_never_none
    driver by_filter filter_name all_elements (w w' : World E) r :
  find_elements_never_misses →
  execute_with_exception_handling driver by_filter filter_name all_elements w = (w', r) →
  (all_elements = true →
     stdout w' = stdout w ∧
     ((∃ l, r = Ok (Some (FoundMany l))) ∨ (∃ ex, r = Raise ex)))
  ∧ (r = Ok None →
     all_elements = false ∧
     stdout w' = stdout w ++ [diagnostic by_filter filter_name])
  ∧ (all_elements = true →
     ∀ e', find_elements driver by_filter filter_name (env w) = (e', Ok []) →
     r = Ok (Some (FoundMany [])) ∧ stdout w' = stdout w).
Proof.
  intros Hnever. rewrite execute_with_exception_handling_spec. simpl.
  unfold selenium_lookup. destruct all_elements.
  - pose proof (Hnever driver by_filter filter_name (env w)) as Hne.
    destruct (find_elements _ _ _ _) as [e1 [l|ex]]; simpl in Hne.
    + intros [= <- <-]. split; [eauto|]. split; [done|].
      intros _ e2 [= _ ->]. done.
    + destruct (decide (ex = NoSuchElementException)) as [->|Hex]; [done|].
      intros [= <- <-]. split; [eauto|]. split; done.
  - destruct (find_element _ _ _ _) as [e1 [x|ex]].
    + intros [= <- <-]. repeat split; done.
    + destruct (decide (ex = NoSuchElementException)) as [->|Hex];
        intros [= <- <-]; repeat split; done.
Qed.


(** *** The accordion walker *)

Lemma click_alpha_navigation_button_unfold i element (w : World E) :
  click_alpha_navigation_button i element w =
  (click_unless_first i element 2;;
   uls ← execute_with_exception_handling Driver By.TAG_NAME "ul" true;
   accordion_item ← subscript uls 1;
   button_elements ←
     execute_with_exception_handling (Within accordion_item) By.XPATH ".//button" true;
   mret (accordion_item, button_elements)) w.
Proof.
  unfold click_alpha_navigation_button, click_unless_first.
  symmetry. apply bind_assoc.
Qed.

(** C5. Once the letter is revealed, the [ul] elements are looked up
    again and the one at position 1 is the content list in which the
    buttons are searched; with fewer than two [ul] elements (none
    included) the call ends in [IndexError] instead of a result. *)
Theorem content_list_is_second_ul i element (w w1 : World E) e2 uls :
  click_unless_first i element 2 w = (w1, Ok tt) →
  find_elements Driver By.TAG_NAME "ul" (env w1) = (e2, Ok uls) →
  let w2 := mkWorld e2 (stdout w1) (files w1)
              (trace w1 ++ [EvFindElements Driver By.TAG_NAME "ul"]) in
  (length uls < 2 →
     click_alpha_navigation_button i element w = (w2, Raise IndexError))
  ∧ (∀ item, uls !! 1 = Some item →
     click_alpha_navigation_button i element w =
     (button_elements ←
        execute_with_exception_handling (Within item) By.XPATH ".//button" true;
      mret (item, button_elements)) w2).
Proof.
  intros Hreveal Hfind. simpl.
  rewrite click_alpha_navigation_button_unfold.
  rewrite (bind_ok _ _ _ _ _ Hreveal).
  rewrite bind_unfold, execute_with_exception_handling_spec. simpl.
  unfold selenium_lookup. rewrite Hfind. split.
  - intros Hlen. rewrite bind_unfold. unfold subscript.
    destruct (uls !! 1) as [item|] eqn:Hitem; [|reflexivity].
    apply lookup_lt_Some in Hitem. lia.
  - intros item Hitem. rewrite bind_unfold. unfold subscript.
    rewrite Hitem. reflexivity.
Qed.

(** *** The entry extractor *)

Lemma process_webpage_elements_unfold j element accordion_item buttons (w : World E) :
  process_webpage_elements j element accordion_item buttons w =
  (click_unless_first j element 3;;
   button_text ← list_item buttons j;
   text_box ←
     execute_with_exception_handling (Within accordion_item) By.XPATH children_xpath false;
   data_container ←
     (if truthy text_box then
        text_box ← attr_text text_box;
        mret (dict_set "text" (PyStr text_box) [("header", PyStr button_text)])
      else mret [("header", PyStr button_text)]);
   image_boxes ←
     execute_with_exception_handling (Within accordion_item) By.XPATH "//img" true;
   image_boxes ← iterate image_boxes;
   images ← for_enumerate (image_loop_body button_text) 0 image_boxes [];
   mret (dict_set "images" (PyList images) data_container)) w.
Proof.
  unfold process_webpage_elements, click_unless_first.
  symmetry. apply bind_assoc.
Qed.

(** C4. When the lookup of the body-text block comes back with [None],
    the entry has no [text] key; when it comes back with an element, the
    entry's [text] is the text read from that element. *)
Theorem text_key_iff_block_found
    j element accordion_item buttons (w w1 w2 w' : World E) text_box entry :
  click_unless_first j element 3 w = (w1, Ok tt) →
  execute_with_exception_handling (Within accordion_item) By.XPATH children_xpath false w1
    = (w2, Ok text_box) →
  process_webpage_elements j element accordion_item buttons w = (w', Ok entry) →
  match text_box with
  | None => dict_get "text" entry = None
  | Some (FoundOne block) =>
      ∃ e3 visible_text,
        element_text block (env w2) = (e3, Ok visible_text) ∧
        dict_get "text" entry = Some (PyStr visible_text)
  | Some (FoundMany _) => False
  end.
Proof.
  intros Hsettle Hlookup. rewrite process_webpage_elements_unfold.
  rewrite (bind_ok _ _ _ _ _ Hsettle). intros Hrun.
  split_ok Hrun. unfold list_item in Hm.
  destruct (buttons !! j) as [button_text|]; [|discriminate].
  injection Hm as <- <-.
  rewrite (bind_ok _ _ _ _ _ Hlookup) in Hrun.
  destruct text_box as [[block|l]|]; simpl in Hrun.
  - split_ok Hrun. split_ok Hm. injection Hm as <- <-.
    unfold text, call in Hm0.
    destruct (element_text block (env w2)) as [e3 [t|ex]] eqn:Htext; [|discriminate].
    injection Hm0 as <- <-. exists e3, t. split; [reflexivity|].
    repeat split_ok Hrun. injection Hrun as _ <-. reflexivity.
  - rewrite execute_with_exception_handling_spec in Hlookup. simpl in Hlookup.
    destruct (find_element _ _ _ _) as [e3 [x|ex]]; [discriminate|].
    destruct (decide _); discriminate.
  - repeat split_ok Hrun. injection Hm as <- <-.
    injection Hrun as _ <-. reflexivity.
Qed.


(** *** Clicks and settle delays *)

Lemma routine_quiet ev : routine ev → quiet ev.
Proof. destruct ev; simpl; done. Qed.

Lemma click_unless_first_then {A} index element seconds (rest : M E A) (w w' : World E) r :
  respects quiet (λ _, False) rest →
  (click_unless_first index element seconds;; rest) w = (w', r) →
  ∃ evs, trace w' = trace w ++ evs ∧
         opens_with index element seconds (element_click element (env w)).2 evs.
Proof.
  intros Hrest. unfold click_unless_first, opens_with, click, sleep.
  rewrite !bind_unfold. destruct (decide (index = 0)) as [->|Hindex].
  - simpl. intros Hrun. apply Hrest in Hrun as [(evs & Htrace & Hquiet) _].
    exists (EvSleep seconds :: evs). simpl in Htrace.
    rewrite Htrace, <- app_assoc. eauto.
  - destruct (decide (index ≠ 0)); [|done]. unfold call.
    destruct (element_click element (env w)) as [e1 [[]|ex]]; simpl.
    + intros Hrun. apply Hrest in Hrun as [(evs & Htrace & Hquiet) _].
      exists (EvClick element :: EvSleep seconds :: evs). simpl in Htrace.
      rewrite Htrace, <- !app_assoc. eauto.
    + intros [= <- _]. eauto.
Qed.

(** C6. A letter is clicked exactly when its index is not 0 and an entry
    button exactly when its index is not 0; the click comes first and is
    followed by a sleep of 2, respectively 3, and nothing else in the
    call clicks or sleeps.  Index 0 gets the sleep without a click. *)
Theorem click_iff_index_nonzero :
  (∀ i element (w w' : World E) r,
     click_alpha_navigation_button i element w = (w', r) →
     ∃ evs, trace w' = trace w ++ evs ∧
            opens_with i element 2 (element_click element (env w)).2 evs)
  ∧ (∀ j element accordion_item buttons (w w' : World E) r,
     process_webpage_elements j element accordion_item buttons w = (w', r) →
     ∃ evs, trace w' = trace w ++ evs ∧
            opens_with j element 3 (element_click element (env w)).2 evs).
Proof.
  assert (∀ path, image_path path → ¬ (λ _ : string, False) path) as Himg by auto.
  split.
  - intros i element w w' r. rewrite click_alpha_navigation_button_unfold.
    apply click_unless_first_then.
    respects_script ltac:(apply routine_quiet; exact I).
  - intros j element accordion_item buttons w w' r.
    rewrite process_webpage_elements_unfold.
    apply click_unless_first_then.
    unfold list_item. destruct (buttons !! j) as [button_text|].
    + apply respects_bind; [apply respects_ret|]. intros bt.
      apply (lookups_and_images_respect quiet _ Himg routine_quiet).
      intros text_box.
      respects_script ltac:(apply routine_quiet; exact I).
    + apply respects_bind; [apply respects_raise|]. intros bt.
      apply (lookups_and_images_respect quiet _ Himg routine_quiet).
      intros text_box.
      respects_script ltac:(apply routine_quiet; exact I).
Qed.


(** *** Image download *)


Lemma image_loop_body_inv button_text i image_box images (w w' : World E) images' :
  image_loop_body button_text i image_box images w = (w', Ok images') →
  ∃ url evs, images' = images ++ [PyStr url] ∧
             trace w' = trace w ++ evs ∧ requested_urls evs = [url].
Proof.
  unfold image_loop_body, open, write, set_file. intros Hrun.
  apply bind_inv_ok in Hrun as (w1 & src & Hsrc & Hrun).
  apply call_inv_ok in Hsrc as (e1 & _ & ->).
  apply bind_inv_ok in Hrun as (w2 & response & Hget & Hrun).
  destruct src as [url|]; [|discriminate].
  apply call_inv_ok in Hget as (e2 & _ & ->). exists url. simpl in Hrun.
  destruct (decide (status_code response = 200%Z)).
  - apply bind_inv_ok in Hrun as (w3 & [] & Hopen & Hrun).
    apply bind_inv_ok in Hopen as (w4 & [] & Hopen & [= <-]).
    apply call_inv_ok in Hopen as (e3 & _ & ->).
    apply bind_inv_ok in Hrun as (w5 & [] & Hwrite & [= <- <-]).
    apply bind_inv_ok in Hwrite as (w6 & [] & Hwrite & [= <-]).
    apply call_inv_ok in Hwrite as (e4 & _ & ->). simpl.
    eexists. split; [done|]. rewrite <- !app_assoc. simpl.
    split; reflexivity.
  - injection Hrun as <- <-. eexists. split; [done|]. simpl.
    rewrite <- !app_assoc. simpl. split; reflexivity.
Qed.

(** Over a whole entry: the list holds the fetched URLs, one per image
    element, in order, whatever the responses were. *)
Lemma images_are_the_requested_urls button_text image_boxes :
  ∀ start images (w w' : World E) images',
    for_enumerate (image_loop_body button_text) start image_boxes images w
      = (w', Ok images') →
    ∃ evs, trace w' = trace w ++ evs ∧
           images' = images ++ map PyStr (requested_urls evs) ∧
           length (requested_urls evs) = length image_boxes.
Proof.
  induction image_boxes as [|box boxes IH]; intros start images w w' images'; simpl.
  - intros [= <- <-]. exists []. rewrite !app_nil_r. done.
  - intros Hrun. split_ok Hrun.
    apply image_loop_body_inv in Hm as (url & evs1 & -> & Ht1 & Hu1).
    apply IH in Hrun as (evs2 & Ht2 & -> & Hlen).
    exists (evs1 ++ evs2). unfold requested_urls in *.
    rewrite omap_app, Hu1, Ht2, Ht1, <- !app_assoc. simpl.
    rewrite Hlen. done.
Qed.


(** *** Page keys *)

Lemma dict_get_set_eq k v d : dict_get k (dict_set k v d) = Some v.
Proof.
  induction d as [|[k' v'] d IH]; simpl.
  - rewrite String.eqb_refl. reflexivity.
  - destruct (String.eqb k k') eqn:Hk; simpl; rewrite Hk; [reflexivity | exact IH].
Qed.

Lemma dict_get_set_ne k k' v d : k ≠ k' → dict_get k (dict_set k' v d) = dict_get k d.
Proof.
  intros Hne. apply String.eqb_neq in Hne.
  induction d as [|[k'' v''] d IH]; simpl.
  - rewrite Hne. reflexivity.
  - destruct (String.eqb k' k'') eqn:Hk'; simpl.
    + apply String.eqb_eq in Hk' as <-. rewrite Hne. reflexivity.
    + rewrite IH. reflexivity.
Qed.

Lemma dict_set_fresh k v d : k ∉ dict_keys d → dict_set k v d = d ++ [(k, v)].
Proof.
  induction d as [|[k' v'] d IH]; simpl; [reflexivity|].
  intros Hk. apply not_elem_of_cons in Hk as [Hne Hk].
  apply String.eqb_neq in Hne. rewrite Hne, IH; done.
Qed.

Lemma page_key_inj i j : page_key i = page_key j → i = j.
Proof.
  unfold page_key. intros Heq.
  apply (inj (String.append "page_")) in Heq. by apply (inj pretty) in Heq.
Qed.

Lemma page_key_fresh n : page_key n ∉ map page_key (seq 0 n).
Proof.
  intros Hin. apply list_elem_of_In, in_map_iff in Hin as (j & Hj & Hin).
  apply page_key_inj in Hj as ->. apply in_seq in Hin. lia.
Qed.

Lemma page_loop_keys accordion_item buttons alpha button_elements :
  ∀ start extracted_data pages (w w' : World E) result,
    dict_get alpha extracted_data = Some (PyDict pages) →
    dict_keys pages = map page_key (seq 0 start) →
    for_enumerate (page_loop_body accordion_item buttons alpha) start
      button_elements extracted_data w = (w', Ok result) →
    ∃ pages', dict_get alpha result = Some (PyDict pages') ∧
              dict_keys pages' = map page_key (seq 0 (start + length button_elements)).
Proof.
  induction button_elements as [|button bs IH];
    intros start extracted_data pages w w' result Hget Hkeys; simpl.
  - intros [= <- <-]. exists pages. rewrite Nat.add_0_r. done.
  - intros Hrun. apply bind_inv_ok in Hrun as (w1 & d1 & Hbody & Hrun).
    unfold page_loop_body in Hbody.
    apply bind_inv_ok in Hbody as (w2 & element & _ & Hbody).
    apply bind_inv_ok in Hbody as (w3 & entry & _ & Hbody).
    unfold dict_set_nested in Hbody. rewrite Hget in Hbody.
    injection Hbody as <- <-.
    eapply IH in Hrun as (pages' & Hget' & Hkeys').
    + exists pages'. split; [exact Hget'|]. rewrite Hkeys'.
      f_equal. f_equal. lia.
    + apply dict_get_set_eq.
    + fold (page_key start). rewrite dict_set_fresh.
      * unfold dict_keys in *. rewrite map_app, Hkeys, seq_S, map_app. reflexivity.
      * rewrite Hkeys. apply page_key_fresh.
Qed.

(** X8. The mapping of a letter is not touched while a letter with another
    label is processed. *)
Lemma letter_loop_body_keeps_other_letters
    i a_nav extracted_data (w w1 w' : World E) alpha other result :
  text a_nav w = (w1, Ok alpha) →
  other ≠ alpha →
  letter_loop_body i a_nav extracted_data w = (w', Ok result) →
  dict_get other result = dict_get other extracted_data.
Proof.
  intros Halpha Hother. unfold letter_loop_body.
  rewrite (bind_ok _ _ _ _ _ Halpha). intros Hrun.
  apply bind_inv_ok in Hrun as (w2 & element & _ & Hrun).
  apply bind_inv_ok in Hrun as (w3 & [accordion_item button_elements] & _ & Hrun).
  apply bind_inv_ok in Hrun as (w4 & bs & _ & Hrun).
  apply bind_inv_ok in Hrun as (w5 & buttons & _ & Hrun).
  rewrite <- (dict_get_set_ne other alpha (PyDict []) extracted_data Hother).
  generalize dependent (dict_set alpha (PyDict []) extracted_data).
  generalize 0 at 1. revert w5.
  induction bs as [|button bs IH]; intros w5 start d; simpl.
  - by intros [= _ <-].
  - intros Hrun. apply bind_inv_ok in Hrun as (w6 & d1 & Hbody & Hrun).
    rewrite (IH _ _ _ Hrun). unfold page_loop_body in Hbody.
    apply bind_inv_ok in Hbody as (w7 & element' & _ & Hbody).
    apply bind_inv_ok in Hbody as (w8 & entry & _ & Hbody).
    unfold dict_set_nested in Hbody.
    destruct (dict_get alpha d) as [[| | |pages]|]; try discriminate.
    injection Hbody as _ <-. by apply dict_get_set_ne.
Qed.

(** One pass of the letter loop: when the button list of the letter has N
    elements, the mapping stored under the letter's label when the pass
    ends has the keys [page_0], ..., [page_(N-1)], one per button and in
    the order of the buttons. *)
Lemma page_keys_after_the_letter
    i a_nav extracted_data (w w1 w2 w' : World E)
    alpha accordion_item button_elements result :
  text a_nav w = (w1, Ok alpha) →
  (element ← wait_clickable a_nav; click_alpha_navigation_button i element) w1
    = (w2, Ok (accordion_item, Some (FoundMany button_elements))) →
  letter_loop_body i a_nav extracted_data w = (w', Ok result) →
  ∃ pages,
    dict_get alpha result = Some (PyDict pages) ∧
    dict_keys pages = map page_key (seq 0 (length button_elements)).
Proof.
  intros Halpha Hclick. unfold letter_loop_body.
  rewrite (bind_ok _ _ _ _ _ Halpha).
  apply bind_inv_ok in Hclick as (w3 & element & Hwait & Hclick).
  rewrite (bind_ok _ _ _ _ _ Hwait), (bind_ok _ _ _ _ _ Hclick).
  simpl. rewrite bind_unfold, mret_unfold. intros Hrun.
  apply bind_inv_ok in Hrun as (w4 & buttons & _ & Hrun).
  eapply (page_loop_keys _ _ _ _ 0) in Hrun; [exact Hrun | apply dict_get_set_eq | done].
Qed.

(** *** The output file *)

Lemma browsing_leaves_json ev : browsing ev → leaves json_path ev.
Proof.
  destruct ev; simpl; try done; unfold image_path; intros Hprefix ->; discriminate.
Qed.

Lemma image_path_not_json path : image_path path → path ≠ json_path.
Proof. unfold image_path. intros Hprefix ->. discriminate. Qed.

Lemma extraction_leaves_json url :
  respects (leaves json_path) (λ path, path = json_path) (extraction url).
Proof.
  unfold extraction, make_img_dir, start_webdriver.
  apply respects_bind; [|intros _; apply respects_bind; [|intros _]].
  - respects_script ltac:(exact I).
  - respects_script ltac:(exact I).
  - apply load_website_respects.
    + apply image_path_not_json.
    + apply browsing_leaves_json.
Qed.

Lemma start_extraction_unfold url (w : World E) :
  start_extraction url w =
  (extracted_content ← extraction url;
   call EvQuit driver_quit;;
   open json_path "w+";;
   write json_path (list_byte_of_string (Json.dumps (PyDict extracted_content)))) w.
Proof.
  unfold start_extraction, extraction. rewrite !bind_assoc.
  rewrite !bind_unfold. destruct (make_img_dir w) as [w1 [[]|ex]]; [|reflexivity].
  rewrite !bind_assoc. reflexivity.
Qed.

(** A successful run, step by step. *)
Lemma start_extraction_ok_inv url (w w' : World E) :
  start_extraction url w = (w', Ok tt) →
  ∃ w1 extracted_content evs,
    let data := list_byte_of_string (Json.dumps (PyDict extracted_content)) in
    extraction url w = (w1, Ok extracted_content) ∧
    trace w1 = trace w ++ evs ∧
    Forall (leaves json_path) evs ∧
    trace w' = trace w1 ++ [EvQuit; EvOpen json_path "w+"; EvWrite json_path data] ∧
    files w' !! json_path = Some data.
Proof.
  rewrite start_extraction_unfold. intros Hrun.
  apply bind_inv_ok in Hrun as (w1 & extracted_content & Hextract & Hrun).
  exists w1, extracted_content.
  pose proof (extraction_leaves_json url _ _ _ Hextract) as [(evs & Htrace & Hevs) _].
  exists evs. simpl. split; [done|]. split; [done|]. split; [done|].
  apply bind_inv_ok in Hrun as (w2 & [] & Hquit & Hrun).
  apply call_inv_ok in Hquit as (e2 & _ & ->).
  apply bind_inv_ok in Hrun as (w3 & [] & Hopen & Hrun).
  unfold open, write, set_file in *.
  apply bind_inv_ok in Hopen as (w4 & [] & Hopen & [= <-]).
  apply call_inv_ok in Hopen as (e3 & _ & ->).
  apply bind_inv_ok in Hrun as (w5 & [] & Hwrite & [= <-]).
  apply call_inv_ok in Hwrite as (e4 & _ & ->). simpl.
  rewrite <- !app_assoc. split; [reflexivity|]. apply lookup_insert_eq.
Qed.

(** C7. When an error is raised before the extraction is over, the run
    ends with that error, has not opened or written the JSON file and
    leaves its content as it was.  When the run succeeds, the JSON file
    is opened and written once, as the last two calls, after the browser
    was shut down, and holds the dump of the extracted dictionary. *)
Theorem json_written_once_at_the_end url (w w' : World E) r :
  start_extraction url w = (w', r) →
  (∀ w1 ex,
     extraction url w = (w1, Raise ex) →
     w' = w1 ∧ r = Raise ex ∧
     quietly (leaves json_path) (λ path, path = json_path) w w')
  ∧ (r = Ok tt →
     ∃ w1 extracted_content evs,
       let data := list_byte_of_string (Json.dumps (PyDict extracted_content)) in
       extraction url w = (w1, Ok extracted_content) ∧
       trace w1 = trace w ++ evs ∧
       Forall (leaves json_path) evs ∧
       trace w' = trace w1 ++ [EvQuit; EvOpen json_path "w+"; EvWrite json_path data] ∧
       files w' !! json_path = Some data).
Proof.
  intros Hrun. split.
  - rewrite start_extraction_unfold in Hrun.
    intros w1 ex Hfail. rewrite (bind_raise _ _ _ _ _ Hfail) in Hrun.
    injection Hrun as <- <-. split; [done|]. split; [done|].
    by eapply extraction_leaves_json.
  - intros ->. by apply start_extraction_ok_inv.
Qed.

End Properties.

(** ** Reading the dump back *)
Module Json_facts.
Import Json.

Lemma append_cons c s t : String c s +:+ t = String c (s +:+ t).
Proof. reflexivity. Qed.

Lemma append_nil_l t : "" +:+ t = t.
Proof. reflexivity. Qed.

Lemma append_nil_r s : s +:+ "" = s.
Proof. induction s as [|c s IH]; [reflexivity|]. rewrite append_cons, IH. reflexivity. Qed.

Lemma append_assoc s t u : (s +:+ t) +:+ u = s +:+ (t +:+ u).
Proof.
  induction s as [|c s IH]; [reflexivity|]. rewrite !append_cons, IH. reflexivity.
Qed.

Lemma length_append s t :
  String.length (s +:+ t) = String.length s + String.length t.
Proof.
  induction s as [|c s IH]; [reflexivity|]. rewrite append_cons. simpl. rewrite IH.
  reflexivity.
Qed.

(** *** Strings *)

Lemma scanstring_cons c s :
  scanstring (String c s) =
  if Ascii.eqb c dquote then Some ("", s)
  else if Ascii.eqb c backslash then
    match s with
    | EmptyString => None
    | String e s'' =>
        if Ascii.eqb e "u" then
          match s'' with
          | String h1 (String h2 (String h3 (String h4 s3))) =>
              match hex4 h1 h2 h3 h4 with
              | Some code =>
                  match utf8 code, scanstring s3 with
                  | Some u, Some (str, rest) => Some (u +:+ str, rest)
                  | _, _ => None
                  end
              | None => None
              end
          | _ => None
          end
        else
          match unescape e, scanstring s'' with
          | Some ch, Some (str, rest) => Some (String ch str, rest)
          | _, _ => None
          end
    end
  else if (nat_of_ascii c <? 32)%nat then None
  else
    match scanstring s with
    | Some (str, rest) => Some (String c str, rest)
    | None => None
    end.
Proof. reflexivity. Qed.

(** One character, escaped or not, is read back as itself. *)
Lemma scanstring_escape_char c tail str rest :
  scanstring tail = Some (str, rest) →
  scanstring (escape_char c +:+ tail) = Some (String c str, rest).
Proof.
  intros Htail.
  destruct c as [[] [] [] [] [] [] [] []];
    vm_compute (escape_char _); rewrite ?append_cons, ?append_nil_l;
    rewrite scanstring_cons; vm_compute (Ascii.eqb _ _); cbv iota;
    vm_compute (Nat.ltb _ _); cbv iota; rewrite Htail; reflexivity.
Qed.

Lemma scanstring_escape s rest :
  scanstring (escape s +:+ String dquote rest) = Some (s, rest).
Proof.
  induction s as [|c s IH].
  - reflexivity.
  - change (escape (String c s)) with (escape_char c +:+ escape s).
    rewrite append_assoc. by apply scanstring_escape_char.
Qed.

Lemma encode_basestring_append s rest :
  encode_basestring s +:+ rest = String dquote (escape s +:+ String dquote rest).
Proof.
  unfold encode_basestring. rewrite append_cons, append_assoc. reflexivity.
Qed.

(** With [ensure_ascii=False] a byte outside ASCII goes out as it is. *)
Lemma escape_char_non_ascii c :
  (128 ≤ nat_of_ascii c)%nat → escape_char c = String c "".
Proof.
  destruct c as [b0 b1 b2 b3 b4 b5 b6 []].
  - intros _. destruct b0, b1, b2, b3, b4, b5, b6; reflexivity.
  - intros Hc. exfalso. destruct b0, b1, b2, b3, b4, b5, b6; vm_compute in Hc; lia.
Qed.

(** *** Whitespace *)

Lemma skip_whitespace_spaces n s :
  skip_whitespace (spaces n +:+ s) = skip_whitespace s.
Proof. induction n as [|n IH]; [reflexivity|]. exact IH. Qed.

Lemma skip_whitespace_indent level s :
  skip_whitespace (newline_indent level +:+ s) = skip_whitespace s.
Proof.
  unfold newline_indent. rewrite append_cons.
  change (skip_whitespace (String newline ?t)) with (skip_whitespace t).
  apply skip_whitespace_spaces.
Qed.

Lemma skip_whitespace_idem s : skip_whitespace (skip_whitespace s) = skip_whitespace s.
Proof.
  induction s as [|c s IH]; [reflexivity|]. simpl.
  destruct (is_whitespace c) eqn:Hc; [exact IH|]. simpl. rewrite Hc. reflexivity.
Qed.

Lemma scan_once_skip fuel s : scan_once fuel (skip_whitespace s) = scan_once fuel s.
Proof. destruct fuel; simpl; [reflexivity|]. rewrite skip_whitespace_idem. reflexivity. Qed.

Lemma scan_array_skip fuel s : scan_array fuel (skip_whitespace s) = scan_array fuel s.
Proof. destruct fuel; simpl; [reflexivity|]. rewrite scan_once_skip. reflexivity. Qed.

Lemma scan_object_skip fuel s : scan_object fuel (skip_whitespace s) = scan_object fuel s.
Proof. destruct fuel; simpl; [reflexivity|]. rewrite skip_whitespace_idem. reflexivity. Qed.


Lemma iterencode_head level o :
  ∃ c r, iterencode level o = String c r ∧ opens_value c.
Proof.
  unfold opens_value.
  destruct o as [|s|l|d]; [| |destruct l|destruct d]; simpl; eauto 10.
Qed.

Lemma opens_value_skip c r : opens_value c → skip_whitespace (String c r) = String c r.
Proof. intros [-> | [-> | [-> | ->]]]; reflexivity. Qed.

(** *** Values *)

Lemma unique_keys_cons x xs :
  unique_keys (PyList (x :: xs)) ↔ unique_keys x ∧ unique_keys (PyList xs).
Proof. reflexivity. Qed.

Lemma unique_keys_dict d :
  unique_keys (PyDict d) ↔ NoDup (dict_keys d) ∧ unique_keys (PyList (map snd d)).
Proof.
  simpl. apply and_iff_compat_l.
  induction d as [|kv d IH]; [reflexivity|]. simpl. rewrite IH. reflexivity.
Qed.

Lemma scan_cost_cons x xs :
  scan_cost (PyList (x :: xs)) = S (scan_cost x + scan_cost (PyList xs)).
Proof. simpl. lia. Qed.

Lemma scan_cost_list_pos xs : (1 ≤ scan_cost (PyList xs))%nat.
Proof. simpl. lia. Qed.

Lemma scan_cost_dict d : scan_cost (PyDict d) = scan_cost (PyList (map snd d)).
Proof.
  simpl. f_equal. induction d as [|kv d IH]; [reflexivity|]. simpl. rewrite IH.
  reflexivity.
Qed.

Lemma scan_array_S fuel s :
  scan_array (S fuel) s =
  match scan_once fuel s with
  | Some (value, rest) =>
      match skip_whitespace rest with
      | String "]" rest' => Some ([value], rest')
      | String "," rest' =>
          match scan_array fuel rest' with
          | Some (values, rest'') => Some (value :: values, rest'')
          | None => None
          end
      | _ => None
      end
  | None => None
  end.
Proof. reflexivity. Qed.

Lemma scan_object_S fuel s :
  scan_object (S fuel) s =
  match skip_whitespace s with
  | String c rest =>
      if Ascii.eqb c dquote then
        match scanstring rest with
        | Some (key, rest1) =>
            match skip_whitespace rest1 with
            | String ":" rest2 =>
                match scan_once fuel rest2 with
                | Some (value, rest3) =>
                    match skip_whitespace rest3 with
                    | String "}" rest' => Some ([(key, value)], rest')
                    | String "," rest' =>
                        match scan_object fuel rest' with
                        | Some (pairs, rest'') => Some ((key, value) :: pairs, rest'')
                        | None => None
                        end
                    | _ => None
                    end
                | None => None
                end
            | _ => None
            end
        | None => None
        end
      else None
  | EmptyString => None
  end.
Proof. reflexivity. Qed.


Lemma scan_array_items level rest xs :
  ∀ x fuel,
    Forall reads_back (x :: xs) →
    unique_keys (PyList (x :: xs)) →
    (scan_cost (PyList (x :: xs)) ≤ S fuel)%nat →
    scan_array fuel
      (newline_indent (S level) +:+ iterencode (S level) x
       +:+ chunks_after_first (iterencode (S level))
             ("," +:+ newline_indent (S level)) xs
       +:+ newline_indent level +:+ "]" +:+ rest)
    = Some (x :: xs, rest).
Proof.
  induction xs as [|y ys IH]; intros x fuel Hback Hunique Hcost;
    apply Forall_cons in Hback as [Hx Hback];
    apply unique_keys_cons in Hunique as [Hux Hunique];
    rewrite scan_cost_cons in Hcost;
    match type of Hcost with
    | context [scan_cost (PyList ?l)] => pose proof (scan_cost_list_pos l) as Hpos
    end;
    (destruct fuel as [|fuel]; [lia|]);
    rewrite scan_array_S, <- scan_once_skip, skip_whitespace_indent, scan_once_skip;
    rewrite Hx by (done || lia).
  - simpl chunks_after_first. rewrite append_nil_l, skip_whitespace_indent.
    reflexivity.
  - simpl chunks_after_first. rewrite !append_assoc, append_cons. simpl skip_whitespace.
    cbv iota. rewrite append_nil_l, IH; [reflexivity|done|done|lia].
Qed.


Lemma iterencode_dict_cons level kv kvs :
  iterencode level (PyDict (kv :: kvs)) =
  "{" +:+ newline_indent (S level) +:+ member level kv
  +:+ chunks_after_first (member level) ("," +:+ newline_indent (S level)) kvs
  +:+ newline_indent level +:+ "}".
Proof. reflexivity. Qed.

Lemma scan_object_members level rest kvs :
  ∀ kv fuel,
    Forall (λ kv, reads_back kv.2) (kv :: kvs) →
    unique_keys (PyList (map snd (kv :: kvs))) →
    (scan_cost (PyList (map snd (kv :: kvs))) ≤ S fuel)%nat →
    scan_object fuel
      (newline_indent (S level) +:+ member level kv
       +:+ chunks_after_first (member level) ("," +:+ newline_indent (S level)) kvs
       +:+ newline_indent level +:+ "}" +:+ rest)
    = Some (kv :: kvs, rest).
Proof.
  induction kvs as [|kv' kvs IH]; intros [k v] fuel Hback Hunique Hcost;
    apply Forall_cons in Hback as [Hv Hback];
    change (map snd ((k, v) :: ?l)) with (v :: map snd l) in *;
    apply unique_keys_cons in Hunique as [Huv Hunique];
    rewrite scan_cost_cons in Hcost;
    match type of Hcost with
    | context [scan_cost (PyList ?l)] => pose proof (scan_cost_list_pos l) as Hpos
    end;
    (destruct fuel as [|fuel]; [lia|]);
    rewrite scan_object_S, skip_whitespace_indent; unfold member at 1;
    change ((k, v).1) with k; change ((k, v).2) with v;
    rewrite !append_assoc, encode_basestring_append;
    change (skip_whitespace (String dquote ?t)) with (String dquote t); cbv iota;
    change (Ascii.eqb dquote dquote) with true; cbv iota;
    rewrite scanstring_escape;
    change (skip_whitespace (": " +:+ ?t)) with (String ":" (String " " t)); cbv iota;
    rewrite <- scan_once_skip;
    change (skip_whitespace (String " " ?t)) with (skip_whitespace t);
    rewrite scan_once_skip;
    simpl in Hv; rewrite Hv by (done || lia).
  - change (chunks_after_first _ _ []) with "".
    rewrite append_nil_l, skip_whitespace_indent. reflexivity.
  - change (chunks_after_first ?f ?sep (kv' :: kvs))
      with (sep +:+ f kv' +:+ chunks_after_first f sep kvs).
    rewrite !append_assoc.
    change (skip_whitespace ("," +:+ ?t)) with (String "," t). cbv iota.
    rewrite (IH kv' fuel); [reflexivity|done|done|lia].
Qed.

Lemma dict_of_pairs_unique pairs :
  NoDup (dict_keys pairs) → dict_of_pairs pairs = pairs.
Proof.
  unfold dict_of_pairs.
  assert (∀ l acc, NoDup (dict_keys (acc ++ l)) →
                   fold_left (λ d kv, dict_set kv.1 kv.2 d) l acc = acc ++ l) as Hfold.
  { induction l as [|[k v] l IH]; intros acc Hnodup; simpl.
    - by rewrite app_nil_r.
    - rewrite dict_set_fresh.
      + rewrite IH; rewrite <- app_assoc; done.
      + unfold dict_keys in *. rewrite map_app in Hnodup.
        apply NoDup_app in Hnodup as (_ & Hdisjoint & _).
        intros Hin. apply (Hdisjoint k Hin). simpl. left. }
  intros Hnodup. by apply (Hfold pairs []).
Qed.

(** Every value whose dictionaries have no repeated key is read back. *)
Lemma reads_back_all o : reads_back o.
Proof.
  induction o as [|s|l IH|d IH] using pyval_ind; intros Hunique level fuel rest Hcost.
  - destruct fuel as [|fuel]; [simpl in Hcost; lia|]. reflexivity.
  - destruct fuel as [|fuel]; [simpl in Hcost; lia|].
    change (iterencode level (PyStr s)) with (encode_basestring s).
    rewrite encode_basestring_append. simpl. 
    change (Ascii.eqb dquote dquote) with true. cbv iota.
    rewrite scanstring_escape. reflexivity.
  - destruct l as [|x xs].
    + destruct fuel as [|fuel]; [simpl in Hcost; lia|]. reflexivity.
    + destruct fuel as [|fuel]; [simpl in Hcost; lia|].
      change (iterencode level (PyList (x :: xs))) with
        ("[" +:+ newline_indent (S level) +:+ iterencode (S level) x
         +:+ chunks_after_first (iterencode (S level))
               ("," +:+ newline_indent (S level)) xs
         +:+ newline_indent level +:+ "]").
      rewrite !append_assoc.
      pose proof (scan_array_items level rest xs x fuel IH Hunique Hcost) as Harray.
      destruct (iterencode_head (S level) x) as (c & r & Hhead & Hc).
      change (scan_once (S fuel) ("[" +:+ ?t)) with
        (match skip_whitespace t with
         | String "]" rest' => Some (PyList [], rest')
         | _ =>
             match scan_array fuel t with
             | Some (values, rest') => Some (PyList values, rest')
             | None => None
             end
         end).
      rewrite Harray, skip_whitespace_indent, Hhead, append_cons, opens_value_skip by done.
      destruct Hc as [-> | [-> | [-> | ->]]]; reflexivity.
  - destruct d as [|kv kvs].
    + destruct fuel as [|fuel]; [simpl in Hcost; lia|]. reflexivity.
    + destruct fuel as [|fuel]; [simpl in Hcost; lia|].
      rewrite iterencode_dict_cons, !append_assoc.
      apply unique_keys_dict in Hunique as [Hnodup Hunique].
      rewrite scan_cost_dict in Hcost.
      pose proof (scan_object_members level rest kvs kv fuel IH Hunique Hcost) as Hobject.
      change (scan_once (S fuel) ("{" +:+ ?t)) with
        (match skip_whitespace t with
         | String "}" rest' => Some (PyDict [], rest')
         | _ =>
             match scan_object fuel t with
             | Some (pairs, rest') => Some (PyDict (dict_of_pairs pairs), rest')
             | None => None
             end
         end).
      rewrite Hobject, skip_whitespace_indent. unfold member at 1.
      rewrite !append_assoc, encode_basestring_append, dict_of_pairs_unique by done.
      reflexivity.
Qed.

Lemma scan_cost_length level o : (scan_cost o ≤ String.length (iterencode level o))%nat.
Proof.
  revert level.
  induction o as [|s|l IH|d IH] using pyval_ind; intros level.
  - simpl. lia.
  - simpl. lia.
  - destruct l as [|x xs]; [simpl; lia|].
    change (iterencode level (PyList (x :: xs))) with
      ("[" +:+ newline_indent (S level) +:+ iterencode (S level) x
       +:+ chunks_after_first (iterencode (S level))
             ("," +:+ newline_indent (S level)) xs
       +:+ newline_indent level +:+ "]").
    rewrite !length_append. 
    apply Forall_cons in IH as [Hx IH]. specialize (Hx (S level)).
    rewrite scan_cost_cons.
    assert (scan_cost (PyList xs) ≤ 1 + String.length
              (chunks_after_first (iterencode (S level))
                 ("," +:+ newline_indent (S level)) xs))%nat as Hxs.
    { clear Hx. induction xs as [|y ys IHys]; [simpl; lia|].
      apply Forall_cons in IH as [Hy IH]. specialize (Hy (S level)).
      rewrite scan_cost_cons. simpl chunks_after_first. rewrite !length_append.
      specialize (IHys IH). simpl String.length. lia. }
    simpl String.length. lia.
  - destruct d as [|kv kvs]; [simpl; lia|].
    rewrite iterencode_dict_cons, !length_append, scan_cost_dict.
    change (map snd (kv :: kvs)) with (kv.2 :: map snd kvs).
    apply Forall_cons in IH as [Hx IH]. specialize (Hx (S level)).
    rewrite scan_cost_cons. unfold member at 1. rewrite !length_append.
    assert (scan_cost (PyList (map snd kvs)) ≤ 1 + String.length
              (chunks_after_first (member level)
                 ("," +:+ newline_indent (S level)) kvs))%nat as Hxs.
    { clear Hx. induction kvs as [|y ys IHys]; [simpl; lia|].
      apply Forall_cons in IH as [Hy IH]. specialize (Hy (S level)).
      change (map snd (y :: ys)) with (y.2 :: map snd ys).
      rewrite scan_cost_cons. simpl chunks_after_first. unfold member at 1.
      rewrite !length_append.
      specialize (IHys IH). simpl String.length. lia. }
    simpl String.length. lia.
Qed.

(** [json.loads(json.dumps(o, indent=True, ensure_ascii=False)) == o] *)
Lemma loads_dumps o : unique_keys o → loads (dumps o) = Some o.
Proof.
  intros Hunique. unfold loads, dumps.
  rewrite <- (append_nil_r (iterencode 0 o)) at 2.
  rewrite reads_back_all; [reflexivity | done | apply scan_cost_length].
Qed.

End Json_facts.

(** ** The shape of the output *)

Section Shape.
Context {E : Type} `{!Environment E} `{!Sanitizer}.

Lemma dict_keys_set k v d :
  dict_keys (dict_set k v d) =
  if bool_decide (k ∈ dict_keys d) then dict_keys d else dict_keys d ++ [k].
Proof.
  induction d as [|[k' v'] d IH]; simpl; [reflexivity|].
  destruct (String.eqb k k') eqn:Hk; simpl.
  - apply String.eqb_eq in Hk as ->. rewrite bool_decide_eq_true_2; [done|]. left.
  - apply String.eqb_neq in Hk. rewrite IH.
    destruct (bool_decide (k ∈ dict_keys d)) eqn:Hin.
    + apply bool_decide_eq_true_1 in Hin. rewrite bool_decide_eq_true_2; [done|].
      by right.
    + apply bool_decide_eq_false_1 in Hin. rewrite bool_decide_eq_false_2; [done|].
      intros Hin'. apply elem_of_cons in Hin' as [?|?]; done.
Qed.

Lemma dict_set_NoDup k v d : NoDup (dict_keys d) → NoDup (dict_keys (dict_set k v d)).
Proof.
  intros Hnodup. rewrite dict_keys_set. case_bool_decide as Hin; [done|].
  apply NoDup_app. split; [done|]. split; [|apply NoDup_singleton].
  intros k' Hk' Heq. apply list_elem_of_singleton in Heq as ->. done.
Qed.

Lemma Forall_dict_set (P : string * pyval → Prop) k v d :
  Forall P d → P (k, v) → Forall P (dict_set k v d).
Proof.
  intros Hd Hkv. induction d as [|[k' v'] d IH]; simpl.
  - by apply Forall_singleton.
  - apply Forall_cons in Hd as [Hhead Hd].
    destruct (String.eqb k k') eqn:Hk.
    + apply String.eqb_eq in Hk as <-. by apply Forall_cons.
    + apply Forall_cons. split; [done | by apply IH].
Qed.

Lemma dict_get_Forall (P : string * pyval → Prop) k v d :
  Forall P d → dict_get k d = Some v → P (k, v).
Proof.
  intros Hd. induction d as [|[k' v'] d IH]; simpl; [done|].
  apply Forall_cons in Hd as [Hhead Hd].
  destruct (String.eqb k k') eqn:Hk.
  - apply String.eqb_eq in Hk as <-. by intros [= <-].
  - by apply IH.
Qed.

Lemma for_enumerate_invariant {A St} (body : nat → A → St → M E St) (I : St → Prop) l :
  (∀ i x s w w' s', I s → body i x s w = (w', Ok s') → I s') →
  ∀ i s w w' s', I s → for_enumerate body i l s w = (w', Ok s') → I s'.
Proof.
  intros Hbody. induction l as [|x l IH]; intros i s w w' s' Hs; simpl.
  - by intros [= _ <-].
  - intros Hrun. apply bind_inv_ok in Hrun as (w1 & s1 & Hstep & Hrun).
    eapply IH; [|exact Hrun]. by eapply Hbody.
Qed.

(** What [process_webpage_elements] returns is an entry of the data model. *)
Lemma process_webpage_elements_entry
    j element accordion_item buttons (w w' : World E) entry :
  process_webpage_elements j element accordion_item buttons w = (w', Ok entry) →
  is_entry (PyDict entry).
Proof.
  rewrite process_webpage_elements_unfold. intros Hrun.
  apply bind_inv_ok in Hrun as (w1 & [] & _ & Hrun).
  apply bind_inv_ok in Hrun as (w2 & header & _ & Hrun).
  apply bind_inv_ok in Hrun as (w3 & text_box & _ & Hrun).
  apply bind_inv_ok in Hrun as (w4 & data_container & Hdata & Hrun).
  apply bind_inv_ok in Hrun as (w5 & image_boxes & _ & Hrun).
  apply bind_inv_ok in Hrun as (w6 & boxes & _ & Hrun).
  apply bind_inv_ok in Hrun as (w7 & images & Himages & [= _ <-]).
  apply images_are_the_requested_urls in Himages as (evs & _ & -> & _).
  rewrite app_nil_l.
  destruct (truthy text_box).
  - apply bind_inv_ok in Hdata as (w8 & body & _ & [= _ <-]).
    exists header, (Some body), (requested_urls evs). reflexivity.
  - injection Hdata as _ <-.
    exists header, None, (requested_urls evs). reflexivity.
Qed.

Lemma page_loop_body_shaped accordion_item buttons alpha j button
    extracted_data (w w' : World E) result :
  shaped extracted_data →
  page_loop_body accordion_item buttons alpha j button extracted_data w = (w', Ok result) →
  shaped result.
Proof.
  intros [Hshape Hnodup] Hrun. unfold page_loop_body in Hrun.
  apply bind_inv_ok in Hrun as (w1 & element & _ & Hrun).
  apply bind_inv_ok in Hrun as (w2 & entry & Hentry & Hrun).
  apply process_webpage_elements_entry in Hentry.
  unfold dict_set_nested in Hrun.
  destruct (dict_get alpha extracted_data) as [[| | |pages]|] eqn:Hget; try discriminate.
  injection Hrun as _ <-.
  split; [|by apply dict_set_NoDup].
  apply Forall_dict_set; [done|]. left.
  apply (dict_get_Forall _ _ _ _ Hshape) in Hget as [Hletter | (_ & s & Hs)];
    [|discriminate].
  destruct Hletter as (pages' & [= <-] & Hpages_nodup & Hpages).
  exists (dict_set ("page_" +:+ pretty j) (PyDict entry) pages).
  split; [done|]. split; [by apply dict_set_NoDup|].
  apply Forall_dict_set; [done|]. split; [by exists j | done].
Qed.

Lemma letter_loop_body_shaped i a_nav extracted_data (w w' : World E) result :
  shaped extracted_data →
  letter_loop_body i a_nav extracted_data w = (w', Ok result) →
  shaped result.
Proof.
  intros [Hshape Hnodup] Hrun. unfold letter_loop_body in Hrun.
  apply bind_inv_ok in Hrun as (w1 & alpha & _ & Hrun).
  apply bind_inv_ok in Hrun as (w2 & element & _ & Hrun).
  apply bind_inv_ok in Hrun as (w3 & [accordion_item button_elements] & _ & Hrun).
  apply bind_inv_ok in Hrun as (w4 & bs & _ & Hrun).
  apply bind_inv_ok in Hrun as (w5 & buttons & _ & Hrun).
  eapply for_enumerate_invariant in Hrun; [exact Hrun| |].
  - intros j button s v v' s'. apply page_loop_body_shaped.
  - split; [|by apply dict_set_NoDup].
    apply Forall_dict_set; [done|]. left. exists []. split; [done|].
    split; [apply NoDup_nil_2 | apply Forall_nil_2].
Qed.

Lemma load_website_shaped url (w w' : World E) extracted :
  load_website url w = (w', Ok extracted) → shaped extracted.
Proof.
  unfold load_website. intros Hrun.
  apply bind_inv_ok in Hrun as (w1 & [] & _ & Hrun).
  apply bind_inv_ok in Hrun as (w2 & [] & _ & Hrun).
  apply bind_inv_ok in Hrun as (w3 & [] & _ & Hrun).
  apply bind_inv_ok in Hrun as (w4 & [] & _ & Hrun).
  apply bind_inv_ok in Hrun as (w5 & main_text & _ & Hrun).
  apply bind_inv_ok in Hrun as (w6 & with_main & Hmain & Hrun).
  apply bind_inv_ok in Hrun as (w7 & content_iframe & _ & Hrun).
  apply bind_inv_ok in Hrun as (w8 & frame & _ & Hrun).
  apply bind_inv_ok in Hrun as (w9 & [] & _ & Hrun).
  apply bind_inv_ok in Hrun as (w10 & uls & _ & Hrun).
  apply bind_inv_ok in Hrun as (w11 & nav & _ & Hrun).
  apply bind_inv_ok in Hrun as (w12 & alpha_nav_buttons & _ & Hrun).
  apply bind_inv_ok in Hrun as (w13 & navs & _ & Hrun).
  eapply for_enumerate_invariant in Hrun; [exact Hrun| |].
  - intros i a_nav s v v' s'. apply letter_loop_body_shaped.
  - destruct (truthy main_text).
    + apply bind_inv_ok in Hmain as (w14 & t & _ & [= _ <-]). split.
      * apply Forall_singleton. right. simpl. eauto.
      * apply NoDup_singleton.
    + injection Hmain as _ <-. split; [apply Forall_nil_2 | apply NoDup_nil_2].
Qed.

Lemma unique_keys_strings images : unique_keys (PyList (map PyStr images)).
Proof. induction images as [|u images IH]; simpl; done. Qed.

Lemma is_entry_unique_keys o : is_entry o → unique_keys o.
Proof.
  intros (header & text & images & ->). unfold entry_of.
  pose proof (unique_keys_strings images) as Himages.
  destruct text as [t|]; simpl in *.
  - split; [|done]. apply (bool_decide_unpack _). reflexivity.
  - split; [|done]. apply (bool_decide_unpack _). reflexivity.
Qed.

Lemma unique_keys_values d :
  NoDup (dict_keys d) → Forall (λ kv, unique_keys kv.2) d → unique_keys (PyDict d).
Proof.
  intros Hnodup Hvalues. split; [done|].
  induction Hvalues as [|kv d Hkv Hd IH]; [done|]. split; [done|].
  apply IH. by apply NoDup_cons in Hnodup as [_ ?].
Qed.

Lemma is_letter_unique_keys o : is_letter o → unique_keys o.
Proof.
  intros (pages & -> & Hnodup & Hpages). apply unique_keys_values; [done|].
  eapply Forall_impl; [exact Hpages|]. intros kv [_ Hentry].
  by apply is_entry_unique_keys.
Qed.

Lemma shaped_unique_keys extracted : shaped extracted → unique_keys (PyDict extracted).
Proof.
  intros [Hshape Hnodup]. apply unique_keys_values; [done|].
  eapply Forall_impl; [exact Hshape|]. intros kv [Hletter | (_ & s & ->)]; [|done].
  by apply is_letter_unique_keys.
Qed.

End Shape.

(** ** File names *)

(** C8. The sanitized name holds no character that the file system
    refuses, and sanitizing it once more changes nothing. *)
Theorem sanitize_filename_valid_and_idempotent (filename : string) :
  Pathvalidate.valid_filename (Pathvalidate.sanitize_filename filename) = true
  ∧ Pathvalidate.sanitize_filename (Pathvalidate.sanitize_filename filename)
    = Pathvalidate.sanitize_filename filename.
Proof.
  induction filename as [|c rest [IHvalid IHidem]]; [done|]. simpl.
  destruct (Pathvalidate.invalid_char c) eqn:Hc; [done|]. simpl.
  rewrite Hc, IHvalid, IHidem. done.
Qed.

(** ** The properties on the fixture page *)

Section On_the_fixture.
Import Fixture.
Local Instance fixture_sanitizer : Sanitizer := Pathvalidate.sanitize_filename.

Local Ltac run := vm_compute; reflexivity.

Lemma helper_swallows_only_no_such_element_witness :
  let w := start bare in
  let missing := execute_with_exception_handling Driver By.TAG_NAME "main" false w in
  selenium_lookup Driver By.TAG_NAME "main" false (env w)
    = (bare, Raise NoSuchElementException)
  ∧ missing.2 = Ok None
  ∧ stdout missing.1 = ["Couldn't find element main with filter tag name!"].
Proof.
  split; [reflexivity|].
  apply (helper_swallows_only_no_such_element Driver By.TAG_NAME "main" false
           (start bare) bare NoSuchElementException); reflexivity.
Defined.

Lemma fixture_never_misses : find_elements_never_misses (E := page).
Proof.
  intros root by_filter filter_name p. simpl. unfold fixture_find_elements.
  repeat case_match; simpl; discriminate.
Defined.

Lemma multi_lookup_never_none_witness :
  let w := start full in
  let run := execute_with_exception_handling Driver By.XPATH "//video" true w in
  find_elements_never_misses (E := page)
  ∧ run = (run.1, Ok (Some (FoundMany [])))
  ∧ stdout run.1 = stdout w.
Proof.
  split; [exact fixture_never_misses|]. split; [reflexivity|].
  apply (multi_lookup_never_none Driver By.XPATH "//video" true (start full)
           _ (Ok (Some (FoundMany []))) fixture_never_misses eq_refl).
  reflexivity.
Defined.

Lemma content_list_is_second_ul_witness :
  ∃ w1,
    let w2 := mkWorld broken (stdout w1) (files w1)
                (trace w1 ++ [EvFindElements Driver By.TAG_NAME "ul"]) in
    click_unless_first 0 (Element 20) 2 (start broken) = (w1, Ok tt)
    ∧ find_elements Driver By.TAG_NAME "ul" (env w1) = (broken, Ok [Element 10])
    ∧ click_alpha_navigation_button 0 (Element 20) (start broken)
      = (w2, Raise IndexError).
Proof.
  eexists. split; [run|]. split; [run|].
  eapply (content_list_is_second_ul 0 (Element 20) (start broken) _ broken [Element 10]);
    [run | run | simpl; lia].
Defined.

Lemma text_key_iff_block_found_witness :
  (∃ w1 w2 w' entry,
     click_unless_first 0 (Element 30) 3 (start full) = (w1, Ok tt)
     ∧ execute_with_exception_handling (Within (Element 11)) By.XPATH children_xpath
         false w1 = (w2, Ok (Some (FoundOne (Element 40))))
     ∧ process_webpage_elements 0 (Element 30) (Element 11) ["Aikido"] (start full)
       = (w', Ok entry)
     ∧ ∃ e3 visible_text,
         element_text (Element 40) (env w2) = (e3, Ok visible_text) ∧
         dict_get "text" entry = Some (PyStr visible_text))
  ∧ (∃ w1 w2 w' entry,
       click_unless_first 0 (Element 30) 3 (start bare) = (w1, Ok tt)
       ∧ execute_with_exception_handling (Within (Element 11)) By.XPATH children_xpath
           false w1 = (w2, Ok None)
       ∧ process_webpage_elements 0 (Element 30) (Element 11) ["Aikido"] (start bare)
         = (w', Ok entry)
       ∧ dict_get "text" entry = None).
Proof.
  split; do 4 eexists; (split; [run|]); (split; [run|]); (split; [run|]).
  - eapply (text_key_iff_block_found 0 (Element 30) (Element 11) ["Aikido"]
              (start full) _ _ _ (Some (FoundOne (Element 40))));
      run.
  - eapply (text_key_iff_block_found 0 (Element 30) (Element 11) ["Aikido"]
              (start bare) _ _ _ None);
      run.
Defined.

Lemma click_iff_index_nonzero_witness :
  ∃ w' r,
    click_alpha_navigation_button 1 (Element 21) (start full) = (w', r)
    ∧ ∃ evs,
        trace w' = trace (start full) ++ evs ∧
        opens_with 1 (Element 21) 2
          (element_click (Element 21) (env (start full))).2 evs.
Proof.
  do 2 eexists. apply and_wlog_r; [run|]. intros Hrun.
  exact (proj1 click_iff_index_nonzero 1 (Element 21) (start full) _ _ Hrun).
Defined.


Lemma json_written_once_at_the_end_witness :
  ∃ w',
    start_extraction "https://www.djg-muenchen.de/japan-a-z" (start full) = (w', Ok tt)
    ∧ ∃ w1 extracted_content evs,
        let data := list_byte_of_string (Json.dumps (PyDict extracted_content)) in
        extraction "https://www.djg-muenchen.de/japan-a-z" (start full)
          = (w1, Ok extracted_content)
        ∧ trace w1 = trace (start full) ++ evs
        ∧ Forall (leaves json_path) evs
        ∧ trace w' = trace w1 ++ [EvQuit; EvOpen json_path "w+"; EvWrite json_path data]
        ∧ files w' !! json_path = Some data.
Proof.
  eexists. apply and_wlog_r; [run|]. intros Hrun.
  exact (proj2 (json_written_once_at_the_end _ _ _ _ Hrun) eq_refl).
Defined.

(** On a page with a main block the output holds the text of that block
    under [main], which is no mapping of page keys to entries. *)
Lemma main_block_is_not_a_letter :
  let url := "https://www.djg-muenchen.de/japan-a-z" in
  let run := start_extraction url (start full) in
  let extracted :=
    [("main", PyStr "Japan A-Z");
     ("A", PyDict [("page_0",
                    entry_of "Aikido" (Some "body")
                      ["https://example.org/a.png"; "https://example.org/gone.png"])]);
     ("B", PyDict [("page_0", entry_of "Bonsai" (Some "body") []);
                   ("page_1", entry_of "Budo" (Some "body") [])])] in
  run.2 = Ok tt
  ∧ (extraction url (start full)).2 = Ok extracted
  ∧ (string_of_list_byte <$> files run.1 !! json_path) = Some (Json.dumps (PyDict extracted))
  ∧ Json.loads (Json.dumps (PyDict extracted)) = Some (PyDict extracted)
  ∧ ¬ matches_data_model extracted.
Proof.
  split; [run|]. split; [run|]. split; [vm_compute; reflexivity|].
  split; [vm_compute; reflexivity|].
  intros Hmodel. apply Forall_cons in Hmodel as [(pages & Hmain & _) _].
  discriminate Hmain.
Qed.

End On_the_fixture.

(** * More of the script *)

(** ** The stages of [load_website] *)

Section Stages_facts.
Context {E : Type} `{!Environment E} `{!Sanitizer}.

Lemma bind_ext {A B} (m : M E A) (k k' : A → M E B) (w : World E) :
  (∀ a w1, k a w1 = k' a w1) → (m ≫= k) w = (m ≫= k') w.
Proof.
  intros Hk. rewrite !bind_unfold. destruct (m w) as [w1 [a|e]]; [apply Hk | reflexivity].
Qed.

Lemma load_website_unfold url (w : World E) :
  load_website url w =
  (extracted_data ← load_website_main url;
   load_website_frame;;
   ul_elements_in_iframe ←
     execute_with_exception_handling Driver By.TAG_NAME "ul" true;
   nav ← subscript ul_elements_in_iframe 0;
   alpha_nav_buttons ←
     execute_with_exception_handling (Within nav) By.XPATH ".//div" true;
   alpha_nav_buttons ← iterate alpha_nav_buttons;
   for_enumerate letter_loop_body 0 alpha_nav_buttons extracted_data) w.
Proof.
  unfold load_website, load_website_main, load_website_frame. symmetry.
  do 5 (rewrite bind_assoc; apply bind_ext; intros ? ?).
  apply bind_ext. intros extracted_data ?.
  do 2 (rewrite bind_assoc; apply bind_ext; intros ? ?).
  reflexivity.
Qed.

(** X1. When the page has no [iframe], the helper prints its diagnostic and
    hands back [None]; the wait on [None] then ends the run with
    [AttributeError], before anything is waited for or switched to. *)
Theorem missing_iframe_is_fatal url (w w1 : World E) extracted e2 :
  load_website_main url w = (w1, Ok extracted) →
  find_element Driver By.TAG_NAME "iframe" (env w1)
    = (e2, Raise NoSuchElementException) →
  load_website url w =
  (mkWorld e2 (stdout w1 ++ [diagnostic By.TAG_NAME "iframe"]) (files w1)
           (trace w1 ++ [EvFindElement Driver By.TAG_NAME "iframe"]),
   Raise AttributeError).
Proof.
  intros Hmain Hfind. rewrite load_website_unfold, (bind_ok _ _ _ _ _ Hmain).
  unfold load_website_frame. rewrite !bind_unfold.
  rewrite execute_with_exception_handling_spec. simpl.
  rewrite Hfind. reflexivity.
Qed.

(** X2. When no [ul] is found inside the frame, taking the navigation list at
    position 0 ends the run with [IndexError]. *)
Theorem missing_lists_are_fatal url (w w1 w2 : World E) extracted e3 :
  load_website_main url w = (w1, Ok extracted) →
  load_website_frame w1 = (w2, Ok tt) →
  find_elements Driver By.TAG_NAME "ul" (env w2) = (e3, Ok []) →
  load_website url w =
  (mkWorld e3 (stdout w2) (files w2)
           (trace w2 ++ [EvFindElements Driver By.TAG_NAME "ul"]),
   Raise IndexError).
Proof.
  intros Hmain Hframe Hfind.
  rewrite load_website_unfold, (bind_ok _ _ _ _ _ Hmain), (bind_ok _ _ _ _ _ Hframe).
  rewrite !bind_unfold, execute_with_exception_handling_spec. simpl.
  rewrite Hfind. reflexivity.
Qed.

(** X3. When the navigation list holds no letter, the run succeeds and
    returns what it had after the main text: the main text alone, or the
    empty dictionary. *)
Theorem no_letters_no_entries url (w w1 w2 : World E) extracted e3 uls nav e4 :
  load_website_main url w = (w1, Ok extracted) →
  load_website_frame w1 = (w2, Ok tt) →
  find_elements Driver By.TAG_NAME "ul" (env w2) = (e3, Ok uls) →
  uls !! 0 = Some nav →
  find_elements (Within nav) By.XPATH ".//div" e3 = (e4, Ok []) →
  load_website url w =
  (mkWorld e4 (stdout w2) (files w2)
           (trace w2 ++ [EvFindElements Driver By.TAG_NAME "ul";
                         EvFindElements (Within nav) By.XPATH ".//div"]),
   Ok extracted).
Proof.
  intros Hmain Hframe Huls Hnav Hletters.
  rewrite load_website_unfold, (bind_ok _ _ _ _ _ Hmain), (bind_ok _ _ _ _ _ Hframe).
  rewrite bind_unfold, execute_with_exception_handling_spec. simpl.
  rewrite Huls. rewrite bind_unfold. unfold subscript. rewrite Hnav.
  rewrite mret_unfold, bind_unfold, execute_with_exception_handling_spec. simpl.
  rewrite Hletters. rewrite <- app_assoc. reflexivity.
Qed.

End Stages_facts.
(** ** Entries *)

Section Entry_facts.
Context {E : Type} `{!Environment E} `{!Sanitizer}.

(** X4. When there is no label at position [j], the call ends with
    [IndexError] right after the click and the sleep: nothing is looked
    up and nothing is downloaded. *)
Theorem out_of_range_button_raises
    j element accordion_item buttons (w w1 : World E) :
  click_unless_first j element 3 w = (w1, Ok tt) →
  buttons !! j = None →
  process_webpage_elements j element accordion_item buttons w = (w1, Raise IndexError).
Proof.
  intros Hsettle Hnone.
  rewrite process_webpage_elements_unfold, (bind_ok _ _ _ _ _ Hsettle).
  rewrite bind_unfold. unfold list_item. rewrite Hnone. reflexivity.
Qed.

Lemma requested_urls_none evs : Forall no_request evs → requested_urls evs = [].
Proof.
  induction 1 as [|ev evs Hev _ IH]; [reflexivity|].
  destruct ev; simpl in Hev; try done; exact IH.
Qed.

(** X5. The entry returned for button [j] is made of the label at position
    [j] as [header], the text of the body block if one was found, and as
    [images] the URLs requested during the call, in the order of the
    requests; it has no other key. *)
Theorem entry_is_header_text_images
    j element accordion_item buttons (w w' : World E) entry :
  process_webpage_elements j element accordion_item buttons w = (w', Ok entry) →
  ∃ header text evs,
    buttons !! j = Some header ∧
    trace w' = trace w ++ evs ∧
    PyDict entry = entry_of header text (requested_urls evs).
Proof.
  rewrite process_webpage_elements_unfold. intros Hrun.
  apply bind_inv_ok in Hrun as (w1 & [] & Hsettle & Hrun).
  apply bind_inv_ok in Hrun as (w2 & header & Hheader & Hrun).
  apply bind_inv_ok in Hrun as (w3 & text_box & Htext_box & Hrun).
  apply bind_inv_ok in Hrun as (w4 & data_container & Hdata & Hrun).
  apply bind_inv_ok in Hrun as (w5 & image_boxes & Himage_boxes & Hrun).
  apply bind_inv_ok in Hrun as (w6 & boxes & Hboxes & Hrun).
  apply bind_inv_ok in Hrun as (w7 & images & Himages & [= <- <-]).
  apply images_are_the_requested_urls in Himages as (evs7 & Ht7 & -> & _).
  unfold list_item in Hheader.
  destruct (buttons !! j) as [label|] eqn:Hlabel; [|discriminate].
  injection Hheader as <- <-.
  assert (quietly no_request (λ _, False) w w6) as [(evs & Ht6 & Hevs) _].
  { assert (∀ A (m : M E A) v v' r,
              respects no_request (λ _, False) m → m v = (v', r) →
              quietly no_request (λ _, False) v v') as Hstep by (intros; eauto).
    eapply quietly_trans; [eapply Hstep; [|exact Hsettle]|].
    { unfold click_unless_first, click, sleep. respects_script ltac:(exact I). }
    eapply quietly_trans; [eapply Hstep; [|exact Htext_box]|].
    { respects_script ltac:(exact I). }
    eapply quietly_trans; [eapply Hstep; [|exact Hdata]|].
    { unfold text. respects_script ltac:(exact I). }
    eapply quietly_trans; [eapply Hstep; [|exact Himage_boxes]|].
    { respects_script ltac:(exact I). }
    eapply Hstep; [|exact Hboxes]. respects_script ltac:(exact I). }
  exists label.
  exists (if truthy text_box
          then match data_container with
               | [_; (_, PyStr body)] => Some body
               | _ => None
               end
          else None).
  exists (evs ++ evs7). split; [done|]. split.
  { rewrite Ht7, Ht6, app_assoc. reflexivity. }
  unfold requested_urls. rewrite omap_app.
  fold (requested_urls evs). rewrite (requested_urls_none evs Hevs).
  rewrite !app_nil_l. fold (requested_urls evs7).
  destruct (truthy text_box).
  - apply bind_inv_ok in Hdata as (w8 & body & _ & [= _ <-]). reflexivity.
  - injection Hdata as _ <-. reflexivity.
Qed.




Lemma image_loop_body_reads button_text i image_box images (w w' : World E) images' :
  image_loop_body button_text i image_box images w = (w', Ok images') →
  ∃ url evs, images' = images ++ [PyStr url] ∧
             trace w' = trace w ++ evs ∧
             requested_urls evs = [url] ∧ src_reads evs = [image_box].
Proof.
  unfold image_loop_body, open, write, set_file. intros Hrun.
  apply bind_inv_ok in Hrun as (w1 & src & Hsrc & Hrun).
  apply call_inv_ok in Hsrc as (e1 & _ & ->).
  apply bind_inv_ok in Hrun as (w2 & response & Hget & Hrun).
  destruct src as [url|]; [|discriminate].
  apply call_inv_ok in Hget as (e2 & _ & ->). exists url. simpl in Hrun.
  destruct (decide (status_code response = 200%Z)).
  - apply bind_inv_ok in Hrun as (w3 & [] & Hopen & Hrun).
    apply bind_inv_ok in Hopen as (w4 & [] & Hopen & [= <-]).
    apply call_inv_ok in Hopen as (e3 & _ & ->).
    apply bind_inv_ok in Hrun as (w5 & [] & Hwrite & [= <- <-]).
    apply bind_inv_ok in Hwrite as (w6 & [] & Hwrite & [= <-]).
    apply call_inv_ok in Hwrite as (e4 & _ & ->). simpl.
    eexists. split; [done|]. rewrite <- !app_assoc. simpl. done.
  - injection Hrun as <- <-. eexists. split; [done|]. simpl.
    rewrite <- !app_assoc. simpl. done.
Qed.

(** X7. Over the images of an entry: the [src] of every image element is read
    once, in the order of the elements, and the list grows by the URLs
    requested, one per element and in the same order, whatever the
    responses were. *)
Theorem image_list_matches_requests button_text image_boxes :
  ∀ start images (w w' : World E) images',
    for_enumerate (image_loop_body button_text) start image_boxes images w
      = (w', Ok images') →
    ∃ evs, trace w' = trace w ++ evs ∧
           images' = images ++ map PyStr (requested_urls evs) ∧
           src_reads evs = image_boxes ∧
           length (requested_urls evs) = length image_boxes.
Proof.
  induction image_boxes as [|box boxes IH]; intros start images w w' images'; simpl.
  - intros [= <- <-]. exists []. rewrite !app_nil_r. done.
  - intros Hrun. apply bind_inv_ok in Hrun as (w1 & images1 & Hbody & Hrun).
    apply image_loop_body_reads in Hbody as (url & evs1 & -> & Ht1 & Hu1 & Hr1).
    apply IH in Hrun as (evs2 & Ht2 & -> & Hr2 & Hlen).
    exists (evs1 ++ evs2). unfold requested_urls, src_reads in *.
    rewrite !omap_app, Hu1, Hr1, Hr2, Ht2, Ht1, <- !app_assoc. simpl.
    rewrite Hlen. done.
Qed.

End Entry_facts.

(** ** The whole run *)

Lemma browsing_session_call ev : browsing ev → session_call ev.
Proof. destruct ev; simpl; tauto. Qed.

Section Session_respects.
Context {E : Type} `{!Environment E} `{!Sanitizer}.
Variable P : event → Prop.
Variable Q : string → Prop.
Hypothesis session_P : ∀ ev, session_call ev → P ev.
Hypothesis foreign_Q : ∀ path, Q path → foreign_path path.

Lemma browser_session_respects url : respects P Q (browser_session url).
Proof.
  assert (∀ path, image_path path → ¬ Q path) as Himages.
  { intros path Himage HQ. apply foreign_Q in HQ as [? _]. done. }
  assert (¬ Q json_path) as Hjson.
  { intros HQ. apply foreign_Q in HQ as [_ ?]. done. }
  unfold browser_session, start_webdriver, open, write.
  apply respects_bind; [apply respects_call, session_P; exact I|]. intros _.
  apply respects_bind.
  { apply load_website_respects; [exact Himages|].
    intros ev Hev. by apply session_P, browsing_session_call. }
  intros extracted_content.
  respects_script ltac:(first [ apply session_P; simpl; first [exact I | by right]
                              | exact Hjson ]).
Qed.

End Session_respects.

Section Run_facts.
Context {E : Type} `{!Environment E} `{!Sanitizer}.

(** X9. When [./images] exists, the run checks for it once and never calls
    [mkdir]: every later call belongs to the browser session. *)
Theorem existing_image_dir_is_kept url (w w' : World E) e1 r :
  os_path_exists "./images" (env w) = (e1, true) →
  start_extraction url w = (w', r) →
  ∃ evs, trace w' = trace w ++ EvPathExists "./images" :: evs ∧
         Forall session_call evs.
Proof.
  intros Hexists.
  change (start_extraction url w) with ((make_img_dir;; browser_session url) w).
  assert (make_img_dir w =
          (mkWorld e1 (stdout w) (files w) (trace w ++ [EvPathExists "./images"]),
           Ok tt)) as Hdir.
  { unfold make_img_dir.
    erewrite bind_ok by (apply call_ok; rewrite Hexists; reflexivity). reflexivity. }
  rewrite (bind_ok _ _ _ _ _ Hdir). intros Hrun.
  apply (browser_session_respects session_call (λ _, False)) in Hrun
    as [(evs & Htrace & Hevs) _]; [|done|done].
  exists evs. simpl in Htrace. rewrite Htrace, <- app_assoc. done.
Qed.

(** X10. When [./images] is missing and cannot be created, the run ends with
    the error of [mkdir], having done nothing else: no browser is
    started. *)
Theorem failed_mkdir_stops_the_run url (w : World E) e1 e2 ex :
  os_path_exists "./images" (env w) = (e1, false) →
  os_mkdir "./images" e1 = (e2, Raise ex) →
  start_extraction url w =
  (mkWorld e2 (stdout w) (files w)
           (trace w ++ [EvPathExists "./images"; EvMkdir "./images"]),
   Raise ex).
Proof.
  intros Hexists Hmkdir. unfold start_extraction, make_img_dir.
  rewrite !bind_unfold. unfold call. rewrite Hexists. simpl. rewrite Hmkdir.
  rewrite <- app_assoc. reflexivity.
Qed.

Lemma extraction_never_quits url :
  respects (λ ev, ¬ is_quit ev) (λ _, False) (extraction url).
Proof.
  unfold extraction, make_img_dir, start_webdriver.
  apply respects_bind; [|intros _; apply respects_bind; [|intros _]].
  - respects_script ltac:(simpl; tauto).
  - respects_script ltac:(simpl; tauto).
  - apply load_website_respects; [auto|]. intros ev. destruct ev; simpl; tauto.
Qed.

(** X11. When the extraction fails, the run ends with its error and the
    browser is never told to quit. *)
Theorem no_quit_after_a_failure url (w w1 : World E) ex :
  extraction url w = (w1, Raise ex) →
  start_extraction url w = (w1, Raise ex)
  ∧ ∃ evs, trace w1 = trace w ++ evs ∧ Forall (λ ev, ¬ is_quit ev) evs.
Proof.
  intros Hfail. split.
  - rewrite start_extraction_unfold. by apply bind_raise.
  - by apply (extraction_never_quits url _ _ _ Hfail).
Qed.

(** X12. On success the browser is told to quit once: after the extraction,
    which never does it, and before the JSON file is opened. *)
Theorem quit_once_on_success url (w w' : World E) :
  start_extraction url w = (w', Ok tt) →
  ∃ evs data,
    trace w' = trace w ++ evs ++ [EvQuit; EvOpen json_path "w+"; EvWrite json_path data]
    ∧ Forall (λ ev, ¬ is_quit ev) evs.
Proof.
  intros Hrun.
  apply start_extraction_ok_inv in Hrun
    as (w1 & extracted & evs0 & Hextract & _ & _ & Htrace & _).
  apply extraction_never_quits in Hextract as [(evs & Hevs & Hquiet) _].
  exists evs. eexists. rewrite Htrace, Hevs, <- app_assoc. done.
Qed.

(** X13. Provided the sanitizer never hands back a name with a [/] in it,
    whatever the outcome of the run, every file it opens or writes is the
    JSON file or a file [./images/<name>.png] whose name holds no [/],
    and every other file is as it was. *)
Theorem only_images_and_json_are_written url (w w' : World E) r :
  (∀ raw, separator_free (sanitize_filename raw) = true) →
  start_extraction url w = (w', r) →
  (∃ evs, trace w' = trace w ++ evs ∧ Forall script_call evs)
  ∧ (∀ path, other_file path → files w' !! path = files w !! path).
Proof.
  intros Hsanitizer. revert w w' r.
  change (respects script_call other_file (start_extraction url)).
  assert (∀ raw, image_file_path ("./images/" +:+ sanitize_filename raw +:+ ".png"))
    as Himage.
  { intros raw. exists (sanitize_filename raw). split; [apply Hsanitizer | reflexivity]. }
  unfold start_extraction, make_img_dir, start_webdriver, open, write.
  respects_script
    ltac:(first [ exact I
                | left; apply Himage
                | right; reflexivity
                | intros [Hother _]; apply Hother, Himage
                | intros [_ Hother]; apply Hother; reflexivity ]).
Qed.

End Run_facts.

(** ** What is printed *)

Section Printing.
Context {E : Type} `{!Environment E} `{!Sanitizer}.
Variable D : string → Prop.

Lemma prints_only_refl (w : World E) : prints_only D w w.
Proof. exists []. rewrite app_nil_r. by split. Qed.

Lemma prints_only_trans (w1 w2 w3 : World E) :
  prints_only D w1 w2 → prints_only D w2 w3 → prints_only D w1 w3.
Proof.
  intros (l1 & H1 & HD1) (l2 & H2 & HD2). exists (l1 ++ l2).
  rewrite H2, H1, app_assoc. split; [done|]. by apply Forall_app.
Qed.

Lemma printing_ret {A} (a : A) : printing D (mret a : M E A).
Proof. intros w w' r [= <- _]. apply prints_only_refl. Qed.

Lemma printing_raise {A} (e : exn) : printing D (raise e : M E A).
Proof. intros w w' r [= <- _]. apply prints_only_refl. Qed.

Lemma printing_bind {A B} (m : M E A) (k : A → M E B) :
  printing D m → (∀ a, printing D (k a)) → printing D (m ≫= k).
Proof.
  intros Hm Hk w w' r Hrun.
  apply bind_inv in Hrun as [(w1 & a & Hrun1 & Hrun2) | (e & Hrun1 & _)].
  - eapply prints_only_trans; [by eapply Hm | by eapply Hk].
  - by eapply Hm.
Qed.

Lemma printing_try_except {A} (m handler : M E A) caught :
  printing D m → printing D handler → printing D (try_except m caught handler).
Proof.
  intros Hm Hh w w' r. unfold try_except.
  destruct (m w) as [w1 [a|e]] eqn:Hrun.
  - intros [= <- _]. by eapply Hm.
  - destruct (decide (e = caught)).
    + intros Hrun2. eapply prints_only_trans; [by eapply Hm | by eapply Hh].
    + intros [= <- _]. by eapply Hm.
Qed.

Lemma printing_call {A} (ev : event) (op : E → E * result A) : printing D (call ev op).
Proof.
  intros w w' r. unfold call. destruct (op (env w)) as [e' r'].
  intros [= <- _]. exists []. simpl. rewrite app_nil_r. by split.
Qed.

Lemma printing_set_file (path : string) data : printing D (set_file path data : M E unit).
Proof. intros w w' r [= <- _]. exists []. simpl. rewrite app_nil_r. by split. Qed.

Lemma printing_print (line : string) : D line → printing D (print line : M E unit).
Proof.
  intros Hline w w' r [= <- _]. exists [line]. simpl. split; [done|].
  by apply Forall_singleton.
Qed.

Lemma printing_for_enumerate {A St} (body : nat → A → St → M E St) l :
  (∀ i x s, printing D (body i x s)) →
  ∀ i s, printing D (for_enumerate body i l s).
Proof.
  intros Hbody. induction l as [|x l IH]; intros i s; simpl.
  - apply printing_ret.
  - apply printing_bind; [apply Hbody|]. intros s'. apply IH.
Qed.

Lemma printing_map_M {A B} (f : A → M E B) l :
  (∀ x, printing D (f x)) → printing D (map_M f l).
Proof.
  intros Hf. induction l as [|x l IH]; simpl.
  - apply printing_ret.
  - apply printing_bind; [apply Hf|]. intros y.
    apply printing_bind; [apply IH|]. intros ys. apply printing_ret.
Qed.

End Printing.

(** Takes a script function apart down to its calls and prints. *)
Ltac printing_script leaf :=
  repeat first
    [ apply printing_ret
    | apply printing_raise
    | apply printing_call
    | apply printing_set_file
    | apply printing_print; leaf
    | progress unfold requests_get_url, subscript, iterate, list_item, attr_text,
        wait_visibility_of, dict_set_nested
    | apply printing_bind; [|intros ?]
    | apply printing_try_except
    | apply printing_for_enumerate; intros ? ? ?
    | apply printing_map_M; intros ?
    | match goal with
      | |- printing _ (if ?b then _ else _) => destruct b
      | |- printing _ (match ?x with _ => _ end) => destruct x
      end ].

Section Printed_facts.
Context {E : Type} `{!Environment E} `{!Sanitizer}.

(** X14. Whatever the outcome of the run, every line it prints is the
    diagnostic of a lookup that found nothing. *)
Theorem only_diagnostics_are_printed url (w w' : World E) r :
  start_extraction url w = (w', r) →
  ∃ lines, stdout w' = stdout w ++ lines ∧ Forall is_diagnostic lines.
Proof.
  revert w w' r. change (printing is_diagnostic (start_extraction url)).
  printing_script ltac:(eexists _, _; reflexivity).
Qed.

End Printed_facts.

(** ** The letters of a run *)

Section Letters_facts.
Context {E : Type} `{!Environment E} `{!Sanitizer}.

Lemma load_website_letters_unfold url (w : World E) :
  load_website url w =
  ('(extracted_data, alpha_nav_buttons) ← load_website_letters url;
   for_enumerate letter_loop_body 0 alpha_nav_buttons extracted_data) w.
Proof.
  rewrite load_website_unfold. unfold load_website_letters. symmetry.
  do 6 (rewrite bind_assoc; apply bind_ext; intros ? ?).
  reflexivity.
Qed.

Lemma load_website_main_unfold url (w : World E) :
  load_website_main url w =
  (load_website_open url;;
   main_text ← execute_with_exception_handling Driver By.TAG_NAME "main" false;
   if truthy main_text then
     main_text ← attr_text main_text;
     mret (dict_set "main" (PyStr main_text) [])
   else mret []) w.
Proof.
  unfold load_website_main, load_website_open. symmetry.
  do 3 (rewrite bind_assoc; apply bind_ext; intros ? ?).
  reflexivity.
Qed.

(** After the main text the dictionary holds that text under [main] if
    the page has a main block, and nothing else. *)
Lemma load_website_main_result url (w w1 : World E) extracted_data :
  load_website_main url w = (w1, Ok extracted_data) →
  dict_get "main" extracted_data = PyStr <$> main_block_text url w
  ∧ (∀ key, key ≠ "main" → dict_get key extracted_data = None).
Proof.
  rewrite load_website_main_unfold. intros Hrun. unfold main_block_text.
  apply bind_inv_ok in Hrun as (w2 & [] & -> & Hrun).
  apply bind_inv_ok in Hrun as (w3 & main_text & Hlookup & Hrun).
  rewrite Hlookup.
  assert (main_text = None ∨ ∃ block, main_text = Some (FoundOne block)) as Hfound.
  { rewrite execute_with_exception_handling_spec in Hlookup. simpl in Hlookup.
    destruct (find_element _ _ _ _) as [e' [block|ex]].
    - injection Hlookup as _ <-. eauto.
    - destruct (decide _); [|discriminate]. injection Hlookup as _ <-. eauto. }
  destruct Hfound as [-> | [block ->]]; simpl in Hrun.
  - injection Hrun as _ <-. done.
  - apply bind_inv_ok in Hrun as (w4 & t & Htext & [= _ <-]).
    apply call_inv_ok in Htext as (e4 & -> & _). simpl. split; [done|].
    intros key Hkey. apply String.eqb_neq in Hkey. rewrite Hkey. done.
Qed.

(** A pass of the letter loop that ends well has read a label and found a
    list of buttons. *)
Lemma letter_loop_body_ok_inv i a_nav extracted_data (w w' : World E) result :
  letter_loop_body i a_nav extracted_data w = (w', Ok result) →
  ∃ w1 alpha w2 accordion_item button_elements,
    text a_nav w = (w1, Ok alpha) ∧
    (element ← wait_clickable a_nav; click_alpha_navigation_button i element) w1
      = (w2, Ok (accordion_item, Some (FoundMany button_elements))).
Proof.
  unfold letter_loop_body. intros Hrun.
  apply bind_inv_ok in Hrun as (w1 & alpha & Htext & Hrun).
  apply bind_inv_ok in Hrun as (w2 & element & Hwait & Hrun).
  apply bind_inv_ok in Hrun as (w3 & [accordion_item button_elements] & Hclick & Hrun).
  apply bind_inv_ok in Hrun as (w4 & bs & Hiter & _).
  destruct button_elements as [[|button_elements]|]; try discriminate.
  exists w1, alpha, w3, accordion_item, button_elements. split; [done|].
  by rewrite (bind_ok _ _ _ _ _ Hwait).
Qed.

Lemma letter_groups_cons i a_nav rest extracted_data (w w1 w2 w' : World E)
    alpha accordion_item button_elements result :
  text a_nav w = (w1, Ok alpha) →
  (element ← wait_clickable a_nav; click_alpha_navigation_button i element) w1
    = (w2, Ok (accordion_item, Some (FoundMany button_elements))) →
  letter_loop_body i a_nav extracted_data w = (w', Ok result) →
  letter_groups i (a_nav :: rest) extracted_data w =
  (alpha, length button_elements) :: letter_groups (S i) rest result w'.
Proof.
  intros Htext Hclick Hbody. cbn [letter_groups]. rewrite Htext, Hclick, Hbody.
  reflexivity.
Qed.

(** A pass of the letter loop leaves alone what stands under any label
    but its own. *)
Lemma letter_loop_body_other_label
    i a_nav extracted_data (w w1 w' : World E) alpha other result :
  text a_nav w = (w1, Ok alpha) →
  other ≠ alpha →
  letter_loop_body i a_nav extracted_data w = (w', Ok result) →
  dict_get other result = dict_get other extracted_data.
Proof.
  intros Halpha Hother Hrun.
  assert (∀ button_elements accordion_item buttons start d (v v' : World E) d',
            for_enumerate (page_loop_body accordion_item buttons alpha) start
              button_elements d v = (v', Ok d') →
            dict_get other d' = dict_get other d) as Hpages.
  { induction button_elements as [|button bs IH];
      intros accordion_item buttons start d v v' d'; simpl.
    - by intros [= _ <-].
    - intros Hloop. apply bind_inv_ok in Hloop as (v1 & d1 & Hbody & Hloop).
      rewrite (IH _ _ _ _ _ _ _ Hloop). unfold page_loop_body in Hbody.
      apply bind_inv_ok in Hbody as (v2 & element & _ & Hbody).
      apply bind_inv_ok in Hbody as (v3 & entry & _ & Hbody).
      unfold dict_set_nested in Hbody.
      destruct (dict_get alpha d) as [[| | |pages]|]; try discriminate.
      injection Hbody as _ <-. by apply dict_get_set_ne. }
  unfold letter_loop_body in Hrun. rewrite (bind_ok _ _ _ _ _ Halpha) in Hrun.
  apply bind_inv_ok in Hrun as (w2 & element & _ & Hrun).
  apply bind_inv_ok in Hrun as (w3 & [accordion_item button_elements] & _ & Hrun).
  apply bind_inv_ok in Hrun as (w4 & bs & _ & Hrun).
  apply bind_inv_ok in Hrun as (w5 & buttons & _ & Hrun).
  rewrite (Hpages _ _ _ _ _ _ _ _ Hrun). by apply dict_get_set_ne.
Qed.

Lemma last_with_label_tail group groups k alpha :
  last_with_label (group :: groups) (S k) alpha → last_with_label groups k alpha.
Proof. intros Hlast k' N' Hk'. apply (Hlast (S k') N'). lia. Qed.

Lemma last_with_label_head group groups alpha :
  last_with_label (group :: groups) 0 alpha → alpha ∉ labels groups.
Proof.
  intros Hlast Hin. unfold labels in Hin.
  apply list_elem_of_fmap in Hin as ([alpha' N'] & -> & Hin).
  apply list_elem_of_lookup in Hin as [k' Hk'].
  apply (Hlast (S k') N'); [lia | exact Hk'].
Qed.

(** The loop over the letters, as a whole. *)
Lemma letter_loop_groups alpha_nav_buttons :
  ∀ i extracted_data (w w' : World E) result,
    for_enumerate letter_loop_body i alpha_nav_buttons extracted_data w = (w', Ok result) →
    let groups := letter_groups i alpha_nav_buttons extracted_data w in
    length groups = length alpha_nav_buttons
    ∧ (∀ key, key ∉ labels groups → dict_get key result = dict_get key extracted_data)
    ∧ (∀ k alpha N,
         groups !! k = Some (alpha, N) → last_with_label groups k alpha →
         ∃ pages, dict_get alpha result = Some (PyDict pages) ∧
                  dict_keys pages = map page_key (seq 0 N)).
Proof.
  induction alpha_nav_buttons as [|a_nav rest IH]; intros i extracted_data w w' result.
  - simpl. intros [= _ <-]. split; [done|]. split; [done|]. intros k alpha N Hk. done.
  - simpl for_enumerate. intros Hrun.
    apply bind_inv_ok in Hrun as (w1 & d1 & Hbody & Hrun).
    destruct (letter_loop_body_ok_inv _ _ _ _ _ _ Hbody)
      as (v1 & alpha & v2 & accordion_item & button_elements & Htext & Hclick).
    rewrite (letter_groups_cons _ _ _ _ _ _ _ _ _ _ _ _ Htext Hclick Hbody).
    destruct (IH _ _ _ _ _ Hrun) as (Hlength & Hother & Hlast).
    cbv zeta. split; [simpl; by rewrite Hlength|]. split.
    + intros key Hkey. unfold labels in *. simpl in Hkey.
      apply not_elem_of_cons in Hkey as [Hne Hkey].
      rewrite (Hother _ Hkey).
      exact (letter_loop_body_other_label _ _ _ _ _ _ _ _ _ Htext Hne Hbody).
    + intros [|k] label N Hk Hlabel.
      * injection Hk as <- <-. apply last_with_label_head in Hlabel.
        rewrite (Hother _ Hlabel).
        exact (page_keys_after_the_letter _ _ _ _ _ _ _ _ _ _ _ Htext Hclick Hbody).
      * apply last_with_label_tail in Hlabel. exact (Hlast _ _ _ Hk Hlabel).
Qed.

(** Every label met holds a mapping at the end. *)
Lemma letter_loop_labels alpha_nav_buttons :
  ∀ i extracted_data (w w' : World E) result alpha,
    for_enumerate letter_loop_body i alpha_nav_buttons extracted_data w = (w', Ok result) →
    alpha ∈ labels (letter_groups i alpha_nav_buttons extracted_data w) →
    ∃ pages, dict_get alpha result = Some (PyDict pages).
Proof.
  induction alpha_nav_buttons as [|a_nav rest IH];
    intros i extracted_data w w' result label.
  - simpl. intros _ Hin. by apply elem_of_nil in Hin.
  - intros Hrun. pose proof Hrun as Hloop. simpl for_enumerate in Hrun.
    apply bind_inv_ok in Hrun as (w1 & d1 & Hbody & Hrun).
    destruct (letter_loop_body_ok_inv _ _ _ _ _ _ Hbody)
      as (v1 & alpha & v2 & accordion_item & button_elements & Htext & Hclick).
    rewrite (letter_groups_cons _ _ _ _ _ _ _ _ _ _ _ _ Htext Hclick Hbody).
    intros Hin.
    destruct (decide (label ∈ labels (letter_groups (S i) rest d1 w1))) as [Hlater|Hlast].
    + exact (IH _ _ _ _ _ _ Hrun Hlater).
    + unfold labels in Hin. simpl in Hin. apply elem_of_cons in Hin as [-> | Hin]; [|done].
      destruct (letter_loop_groups _ _ _ _ _ _ Hrun) as (_ & Hother & _).
      rewrite (Hother _ Hlast).
      destruct (page_keys_after_the_letter _ _ _ _ _ _ _ _ _ _ _ Htext Hclick Hbody)
        as (pages & Hget & _).
      eauto.
Qed.


Lemma load_website_groups url (w w' : World E) result :
  load_website url w = (w', Ok result) →
  ∃ w1 extracted_data alpha_nav_buttons,
    load_website_letters url w = (w1, Ok (extracted_data, alpha_nav_buttons)) ∧
    groups_of_run url w = letter_groups 0 alpha_nav_buttons extracted_data w1 ∧
    for_enumerate letter_loop_body 0 alpha_nav_buttons extracted_data w1 = (w', Ok result) ∧
    dict_get "main" extracted_data = PyStr <$> main_block_text url w ∧
    (∀ key, key ≠ "main" → dict_get key extracted_data = None).
Proof.
  rewrite load_website_letters_unfold. intros Hrun.
  apply bind_inv_ok in Hrun as (w1 & [extracted_data alpha_nav_buttons] & Hletters & Hrun).
  exists w1, extracted_data, alpha_nav_buttons. split; [done|].
  split; [unfold groups_of_run; by rewrite Hletters|]. split; [done|].
  unfold load_website_letters in Hletters.
  apply bind_inv_ok in Hletters as (w2 & d & Hmain & Hletters).
  apply bind_inv_ok in Hletters as (w3 & [] & _ & Hletters).
  apply bind_inv_ok in Hletters as (w4 & uls & _ & Hletters).
  apply bind_inv_ok in Hletters as (w5 & nav & _ & Hletters).
  apply bind_inv_ok in Hletters as (w6 & found & _ & Hletters).
  apply bind_inv_ok in Hletters as (w7 & navs & _ & [= _ <- _]).
  exact (load_website_main_result _ _ _ _ Hmain).
Qed.

(** C1, amended. In the dictionary [load_website] returns, for every
    letter group whose button list has N elements and whose label no
    later letter group carries, the mapping under the label of the group
    has the keys [page_0], ..., [page_(N-1)], one per button and in the
    order of the buttons; every letter element makes one group. *)
Theorem page_keys_positional url (w w' : World E) result :
  load_website url w = (w', Ok result) →
  ∃ w1 extracted_data alpha_nav_buttons,
    load_website_letters url w = (w1, Ok (extracted_data, alpha_nav_buttons)) ∧
    let groups := groups_of_run url w in
    length groups = length alpha_nav_buttons ∧
    ∀ k alpha N,
      groups !! k = Some (alpha, N) → last_with_label groups k alpha →
      ∃ pages, dict_get alpha result = Some (PyDict pages) ∧
               dict_keys pages = map page_key (seq 0 N).
Proof.
  intros Hrun.
  destruct (load_website_groups _ _ _ _ Hrun)
    as (w1 & extracted_data & alpha_nav_buttons & Hletters & Hgroups & Hloop & _).
  exists w1, extracted_data, alpha_nav_buttons. split; [done|].
  cbv zeta. rewrite Hgroups.
  destruct (letter_loop_groups _ _ _ _ _ _ Hloop) as (Hlength & _ & Hlast).
  split; [exact Hlength | exact Hlast].
Qed.

(** C9, amended. After a successful run the JSON file holds the dump of
    the dictionary [load_website] returned, indented by one space per
    level, with every character outside ASCII written as it is; read back
    with [json.loads] it is that dictionary again.  In the dictionary
    every label of a letter holds a mapping from page keys to entries
    made of [header], an optional [text] and [images], a list of strings;
    the key [main], unless a letter carries that label, holds the text of
    the main block as a string when the page has a main block and is
    missing when it has none; there is no other key. *)
Theorem output_round_trips url (w w' : World E) :
  start_extraction url w = (w', Ok tt) →
  ∃ w0 w1 extracted data,
    (make_img_dir;; start_webdriver) w = (w0, Ok tt) ∧
    load_website url w0 = (w1, Ok extracted) ∧
    extraction url w = (w1, Ok extracted) ∧
    data = list_byte_of_string (Json.dumps (PyDict extracted)) ∧
    files w' !! json_path = Some data ∧
    Json.loads (string_of_list_byte data) = Some (PyDict extracted) ∧
    (∀ c, (128 ≤ nat_of_ascii c)%nat → Json.escape_char c = String c "") ∧
    let letters := labels (groups_of_run url w0) in
    (∀ alpha, alpha ∈ letters →
       ∃ value, dict_get alpha extracted = Some value ∧ is_letter value)
    ∧ ("main" ∉ letters →
       dict_get "main" extracted = PyStr <$> main_block_text url w0)
    ∧ (∀ key, key ∉ letters → key ≠ "main" → dict_get key extracted = None).
Proof.
  intros Hrun.
  destruct (start_extraction_ok_inv url w w' Hrun)
    as (w1 & extracted & evs & Hextract & _ & _ & _ & Hfile).
  pose proof Hextract as Hstages. unfold extraction in Hstages.
  apply bind_inv_ok in Hstages as (w2 & [] & Hdir & Hstages).
  apply bind_inv_ok in Hstages as (w0 & [] & Hdriver & Hload).
  exists w0, w1, extracted, (list_byte_of_string (Json.dumps (PyDict extracted))).
  split; [by rewrite (bind_ok _ _ _ _ _ Hdir)|].
  split; [done|]. split; [done|]. split; [done|]. split; [done|].
  pose proof (load_website_shaped _ _ _ _ Hload) as Hshaped.
  rewrite string_of_list_byte_of_string.
  split; [apply Json_facts.loads_dumps; by apply shaped_unique_keys|].
  split; [apply Json_facts.escape_char_non_ascii|].
  destruct (load_website_groups _ _ _ _ Hload)
    as (w3 & extracted_data & alpha_nav_buttons & _ & Hgroups & Hloop & Hmain & Hrest).
  cbv zeta. rewrite Hgroups.
  destruct (letter_loop_groups _ _ _ _ _ _ Hloop) as (_ & Hother & _).
  split; [|split].
  - intros alpha Halpha.
    destruct (letter_loop_labels _ _ _ _ _ _ _ Hloop Halpha) as (pages & Hget).
    exists (PyDict pages). split; [done|].
    destruct Hshaped as [Hvalues _].
    by destruct (dict_get_Forall _ _ _ _ Hvalues Hget) as [? | (_ & s & ?)].
  - intros Hlabel. by rewrite (Hother _ Hlabel).
  - intros key Hlabel Hkey. rewrite (Hother _ Hlabel). by apply Hrest.
Qed.

End Letters_facts.

(** ** These properties on the fixtures *)

Section On_both_fixtures.
Local Existing Instance fixture_sanitizer.

Local Ltac run := vm_compute; reflexivity.

Lemma missing_iframe_is_fatal_witness :
  ∃ w1 extracted,
    load_website_main site_url (Faulty.start Faulty.frameless) = (w1, Ok extracted)
    ∧ find_element Driver By.TAG_NAME "iframe" (env w1)
      = (Faulty.frameless, Raise NoSuchElementException)
    ∧ load_website site_url (Faulty.start Faulty.frameless) =
      (mkWorld Faulty.frameless (stdout w1 ++ [diagnostic By.TAG_NAME "iframe"])
         (files w1) (trace w1 ++ [EvFindElement Driver By.TAG_NAME "iframe"]),
       Raise AttributeError).
Proof.
  do 2 eexists. apply and_wlog_r; [run|]. intros Hmain.
  apply and_wlog_r; [run|]. intros Hfind.
  exact (missing_iframe_is_fatal _ _ _ _ _ Hmain Hfind).
Defined.

Lemma missing_lists_are_fatal_witness :
  ∃ w1 w2 extracted,
    load_website_main site_url (Faulty.start Faulty.listless) = (w1, Ok extracted)
    ∧ load_website_frame w1 = (w2, Ok tt)
    ∧ find_elements Driver By.TAG_NAME "ul" (env w2) = (Faulty.listless, Ok [])
    ∧ load_website site_url (Faulty.start Faulty.listless) =
      (mkWorld Faulty.listless (stdout w2) (files w2)
         (trace w2 ++ [EvFindElements Driver By.TAG_NAME "ul"]),
       Raise IndexError).
Proof.
  do 3 eexists. apply and_wlog_r; [run|]. intros Hmain.
  apply and_wlog_r; [run|]. intros Hframe.
  apply and_wlog_r; [run|]. intros Hfind.
  exact (missing_lists_are_fatal _ _ _ _ _ _ Hmain Hframe Hfind).
Defined.

Lemma no_letters_no_entries_witness :
  ∃ w1 w2,
    load_website_main site_url (Faulty.start Faulty.letterless)
      = (w1, Ok [("main", PyStr "Japan A-Z")])
    ∧ load_website_frame w1 = (w2, Ok tt)
    ∧ find_elements Driver By.TAG_NAME "ul" (env w2)
      = (Faulty.letterless, Ok [Element 10; Element 11])
    ∧ [Element 10; Element 11] !! 0 = Some (Element 10)
    ∧ find_elements (Within (Element 10)) By.XPATH ".//div" Faulty.letterless
      = (Faulty.letterless, Ok [])
    ∧ load_website site_url (Faulty.start Faulty.letterless) =
      (mkWorld Faulty.letterless (stdout w2) (files w2)
         (trace w2 ++ [EvFindElements Driver By.TAG_NAME "ul";
                       EvFindElements (Within (Element 10)) By.XPATH ".//div"]),
       Ok [("main", PyStr "Japan A-Z")]).
Proof.
  do 2 eexists. apply and_wlog_r; [run|]. intros Hmain.
  apply and_wlog_r; [run|]. intros Hframe.
  apply and_wlog_r; [run|]. intros Huls.
  apply and_wlog_r; [reflexivity|]. intros Hnav.
  apply and_wlog_r; [run|]. intros Hletters.
  exact (no_letters_no_entries _ _ _ _ _ _ _ _ _ Hmain Hframe Huls Hnav Hletters).
Defined.

Lemma out_of_range_button_raises_witness :
  ∃ w1,
    click_unless_first 1 (Element 30) 3 (Fixture.start Fixture.full) = (w1, Ok tt)
    ∧ ["Aikido"] !! 1 = None
    ∧ process_webpage_elements 1 (Element 30) (Element 11) ["Aikido"]
        (Fixture.start Fixture.full) = (w1, Raise IndexError).
Proof.
  eexists. apply and_wlog_r; [run|]. intros Hsettle.
  apply and_wlog_r; [reflexivity|]. intros Hnone.
  exact (out_of_range_button_raises _ _ _ _ _ _ Hsettle Hnone).
Defined.

Lemma entry_is_header_text_images_witness :
  ∃ w' entry,
    process_webpage_elements 0 (Element 30) (Element 11) ["Aikido"]
      (Fixture.start Fixture.full) = (w', Ok entry)
    ∧ ∃ header text evs,
        ["Aikido"] !! 0 = Some header ∧
        trace w' = trace (Fixture.start Fixture.full) ++ evs ∧
        PyDict entry = entry_of header text (requested_urls evs).
Proof.
  do 2 eexists. apply and_wlog_r; [run|]. intros Hrun.
  exact (entry_is_header_text_images _ _ _ _ _ _ _ Hrun).
Defined.


Lemma image_list_matches_requests_witness :
  ∃ w' images',
    for_enumerate (image_loop_body "Aikido") 0 [Element 50; Element 51] []
      (Fixture.start Fixture.full) = (w', Ok images')
    ∧ ∃ evs, trace w' = trace (Fixture.start Fixture.full) ++ evs ∧
             images' = [] ++ map PyStr (requested_urls evs) ∧
             src_reads evs = [Element 50; Element 51] ∧
             length (requested_urls evs) = length [Element 50; Element 51].
Proof.
  do 2 eexists. apply and_wlog_r; [run|]. intros Hrun.
  exact (image_list_matches_requests _ _ _ _ _ _ _ Hrun).
Defined.

Lemma letter_loop_body_keeps_other_letters_witness :
  ∃ w1 w' result,
    text (Element 21) (Fixture.start Fixture.full) = (w1, Ok "B")
    ∧ "A" ≠ "B"
    ∧ letter_loop_body 1 (Element 21) [("A", PyDict [])] (Fixture.start Fixture.full)
      = (w', Ok result)
    ∧ dict_get "A" result = dict_get "A" [("A", PyDict [])].
Proof.
  do 3 eexists. apply and_wlog_r; [run|]. intros Halpha.
  apply and_wlog_r; [discriminate|]. intros Hother.
  apply and_wlog_r; [run|]. intros Hrun.
  exact (letter_loop_body_keeps_other_letters _ _ _ _ _ _ _ _ _ Halpha Hother Hrun).
Defined.

Lemma existing_image_dir_is_kept_witness :
  ∃ w' r,
    os_path_exists "./images" (env (Faulty.start Faulty.sound)) = (Faulty.sound, true)
    ∧ start_extraction site_url (Faulty.start Faulty.sound) = (w', r)
    ∧ ∃ evs, trace w' = trace (Faulty.start Faulty.sound)
                        ++ EvPathExists "./images" :: evs ∧
             Forall session_call evs.
Proof.
  do 2 eexists. apply and_wlog_r; [reflexivity|]. intros Hexists.
  apply and_wlog_r; [run|]. intros Hrun.
  exact (existing_image_dir_is_kept _ _ _ _ _ Hexists Hrun).
Defined.

Lemma failed_mkdir_stops_the_run_witness :
  os_path_exists "./images" (env (Faulty.start Faulty.read_only))
    = (Faulty.read_only, false)
  ∧ os_mkdir "./images" Faulty.read_only
    = (Faulty.read_only, Raise (OSError "Permission denied"))
  ∧ start_extraction site_url (Faulty.start Faulty.read_only) =
    (mkWorld Faulty.read_only [] ∅ [EvPathExists "./images"; EvMkdir "./images"],
     Raise (OSError "Permission denied")).
Proof.
  apply and_wlog_r; [reflexivity|]. intros Hexists.
  apply and_wlog_r; [reflexivity|]. intros Hmkdir.
  exact (failed_mkdir_stops_the_run site_url _ _ _ _ Hexists Hmkdir).
Defined.

Lemma no_quit_after_a_failure_witness :
  ∃ w1,
    extraction site_url (Fixture.start Fixture.broken) = (w1, Raise IndexError)
    ∧ start_extraction site_url (Fixture.start Fixture.broken) = (w1, Raise IndexError)
    ∧ ∃ evs, trace w1 = trace (Fixture.start Fixture.broken) ++ evs ∧
             Forall (λ ev, ¬ is_quit ev) evs.
Proof.
  eexists. apply and_wlog_r; [run|]. intros Hfail.
  exact (no_quit_after_a_failure _ _ _ _ Hfail).
Defined.

Lemma quit_once_on_success_witness :
  ∃ w',
    start_extraction site_url (Fixture.start Fixture.full) = (w', Ok tt)
    ∧ ∃ evs data,
        trace w' = trace (Fixture.start Fixture.full) ++ evs
                   ++ [EvQuit; EvOpen json_path "w+"; EvWrite json_path data]
        ∧ Forall (λ ev, ¬ is_quit ev) evs.
Proof.
  eexists. apply and_wlog_r; [run|]. intros Hrun.
  exact (quit_once_on_success _ _ _ Hrun).
Defined.

Lemma sanitized_name_is_separator_free raw :
  separator_free (Pathvalidate.sanitize_filename raw) = true.
Proof.
  induction raw as [|c rest IH]; [reflexivity|]. simpl.
  destruct (Pathvalidate.invalid_char c) eqn:Hc; [exact IH|]. simpl.
  rewrite IH, andb_true_r. destruct (Ascii.eqb_spec c "/") as [->|]; [|reflexivity].
  discriminate Hc.
Defined.

Lemma only_images_and_json_are_written_witness :
  ∃ w' r,
    (∀ raw, separator_free (sanitize_filename raw) = true)
    ∧ start_extraction site_url (Fixture.start Fixture.full) = (w', r)
    ∧ (∃ evs, trace w' = trace (Fixture.start Fixture.full) ++ evs ∧
              Forall script_call evs)
    ∧ (∀ path, other_file path →
               files w' !! path = files (Fixture.start Fixture.full) !! path).
Proof.
  do 2 eexists. apply and_wlog_r; [exact sanitized_name_is_separator_free|].
  intros Hsanitizer. apply and_wlog_r; [run|]. intros Hrun.
  exact (only_images_and_json_are_written _ _ _ _ Hsanitizer Hrun).
Defined.

Lemma only_diagnostics_are_printed_witness :
  ∃ w' r,
    start_extraction site_url (Fixture.start Fixture.bare) = (w', r)
    ∧ ∃ lines, stdout w' = stdout (Fixture.start Fixture.bare) ++ lines ∧
               Forall is_diagnostic lines.
Proof.
  do 2 eexists. apply and_wlog_r; [run|]. intros Hrun.
  exact (only_diagnostics_are_printed _ _ _ _ Hrun).
Defined.

End On_both_fixtures.

(** ** The letters and the output on the pages *)

Section On_the_pages.
Local Existing Instance fixture_sanitizer.
Local Ltac run := vm_compute; reflexivity.

Lemma page_keys_positional_witness :
  ∃ w' result,
    load_website site_url (Fixture.start Fixture.full) = (w', Ok result)
    ∧ groups_of_run site_url (Fixture.start Fixture.full) = [("A", 1); ("B", 2)]
    ∧ last_with_label [("A", 1); ("B", 2)] 0 "A"
    ∧ last_with_label [("A", 1); ("B", 2)] 1 "B"
    ∧ (∃ pages, dict_get "A" result = Some (PyDict pages) ∧
                dict_keys pages = ["page_0"])
    ∧ (∃ pages, dict_get "B" result = Some (PyDict pages) ∧
                dict_keys pages = ["page_0"; "page_1"]).
Proof.
  do 2 eexists. apply and_wlog_r; [run|]. intros Hrun.
  apply and_wlog_r; [run|]. intros Hgroups.
  apply and_wlog_r.
  { intros [|[|k']] N' Hk'; simpl; [lia | discriminate | done]. }
  intros HA. apply and_wlog_r.
  { intros [|[|k']] N' Hk'; simpl; [lia | lia | done]. }
  intros HB.
  destruct (page_keys_positional _ _ _ _ Hrun) as (w1 & d & navs & _ & _ & Hkeys).
  rewrite Hgroups in Hkeys.
  split; [exact (Hkeys 0 "A" 1 eq_refl HA) | exact (Hkeys 1 "B" 2 eq_refl HB)].
Defined.

(** Both letters of this page read "A"; the first has one button, the
    second two.  What the run returns under "A" are the two pages of the
    second letter, not the one page of the first. *)
Lemma same_label_replaces_the_pages :
  let run := load_website site_url Twins.start in
  groups_of_run site_url Twins.start = [("A", 1); ("A", 2)]
  ∧ ∃ result pages,
      run.2 = Ok result ∧
      dict_get "A" result = Some (PyDict pages) ∧
      dict_keys pages = ["page_0"; "page_1"] ∧
      dict_keys pages ≠ map page_key (seq 0 1).
Proof.
  split; [run|]. do 2 eexists. split; [run|]. split; [run|]. split; [run|].
  vm_compute. discriminate.
Qed.

Lemma output_round_trips_witness :
  ∃ w',
    start_extraction site_url (Fixture.start Fixture.full) = (w', Ok tt)
    ∧ ∃ w0 w1 extracted data,
        (make_img_dir;; start_webdriver) (Fixture.start Fixture.full) = (w0, Ok tt) ∧
        load_website site_url w0 = (w1, Ok extracted) ∧
        extraction site_url (Fixture.start Fixture.full) = (w1, Ok extracted) ∧
        data = list_byte_of_string (Json.dumps (PyDict extracted)) ∧
        files w' !! json_path = Some data ∧
        Json.loads (string_of_list_byte data) = Some (PyDict extracted) ∧
        (∀ c, (128 ≤ nat_of_ascii c)%nat → Json.escape_char c = String c "") ∧
        let letters := labels (groups_of_run site_url w0) in
        (∀ alpha, alpha ∈ letters →
           ∃ value, dict_get alpha extracted = Some value ∧ is_letter value)
        ∧ ("main" ∉ letters →
           dict_get "main" extracted = PyStr <$> main_block_text site_url w0)
        ∧ (∀ key, key ∉ letters → key ≠ "main" → dict_get key extracted = None).
Proof.
  eexists. apply and_wlog_r; [run|]. intros Hrun.
  exact (output_round_trips _ _ _ Hrun).
Defined.

End On_the_pages.
